(** * ultimate_scraper.py: a shallow embedding and its verified properties

    The program is a sequential pipeline: fetch a page, extract its text,
    summarise, paraphrase, harvest the images, write three documents.

    Python [str] values are lists of Unicode code points, Python [int] is
    [Z], a [dict] that is iterated is the list of its items in insertion
    order.  Every call that leaves the interpreter (network, browser, file
    system, clock, third-party parsers and writers) is an operation of an
    explicit host acting on the state of the outside world; exceptions are
    values, and [try]/[except] is a combinator.  What the program takes
    from the Unicode database beyond ASCII is a parameter.

    The first part of the file is the model, function by function under
    the names of the source; the second part proves its properties. *)

From Stdlib Require Import String Ascii DecimalString.
From Stdlib Require Import List NArith ZArith Bool Lia Permutation Sorted.
Import ListNotations.

Set Implicit Arguments.
Local Open Scope N_scope.

(* ================================================================== *)
(** * Python strings *)
(* ================================================================== *)

(** A character is a Unicode code point; a [str] is a sequence of them. *)
Definition char := N.
Definition str := list char.

(** An ASCII literal of the source, read as code points. *)
Definition lit (s : string) : str := map N_of_ascii (list_ascii_of_string s).

Definition str_eqb (a b : str) : bool :=
  if list_eq_dec N.eq_dec a b then true else false.

(** [s.startswith(p)] *)
Fixpoint startswith (p s : str) : bool :=
  match p, s with
  | [], _ => true
  | _ :: _, [] => false
  | a :: p', b :: s' => (a =? b) && startswith p' s'
  end.

(** [p in s] for strings: [p] occurs as a contiguous substring of [s]. *)
Fixpoint contains (p s : str) : bool :=
  startswith p s ||
  match s with
  | [] => false
  | _ :: s' => contains p s'
  end.

(** [sep.join(parts)] *)
Fixpoint join (sep : str) (parts : list str) : str :=
  match parts with
  | [] => []
  | [p] => p
  | p :: rest => p ++ sep ++ join sep rest
  end.

(** [len(s)] as a Python integer. *)
Definition len {A} (l : list A) : Z := Z.of_nat (length l).

(** [s[:k]] with Python's treatment of a negative bound. *)
Definition slice_to {A} (k : Z) (l : list A) : list A :=
  if (k <? 0)%Z then firstn (Z.to_nat (len l + k)) l
  else firstn (Z.to_nat k) l.

Fixpoint lstrip_by (f : char -> bool) (s : str) : str :=
  match s with
  | [] => []
  | c :: s' => if f c then lstrip_by f s' else s
  end.

Definition rstrip_by (f : char -> bool) (s : str) : str :=
  rev (lstrip_by f (rev s)).

Definition strip_by (f : char -> bool) (s : str) : str :=
  rstrip_by f (lstrip_by f s).

(** ** Character classes *)

Definition in_range (lo hi c : char) : bool := (lo <=? c) && (c <=? hi).

Definition is_ascii (c : char) : bool := c <? 128.

Definition ascii_upper_letter (c : char) : bool := in_range 65 90 c.
Definition ascii_lower_letter (c : char) : bool := in_range 97 122 c.
Definition ascii_digit (c : char) : bool := in_range 48 57 c.

Definition underscore : char := 95.

(** The class [[A-Za-z0-9_]] written out in [short_safe_folder]. *)
Definition is_safe_char (c : char) : bool :=
  ascii_upper_letter c || ascii_lower_letter c || ascii_digit c
  || (c =? underscore).

(** The Devanagari block U+0900..U+097F tested by the source's
    [re.search] calls. *)
Definition is_devanagari (c : char) : bool := in_range 0x900 0x97F c.

(** Python's [str.isspace] per character, which is also the regular
    expression class [\s] on [str] patterns: the ASCII controls 9-13 and
    28-31, the space, and the Unicode separators. *)
Definition isspace (c : char) : bool :=
  in_range 9 13 c || in_range 28 31 c || (c =? 32) || (c =? 0x85)
  || (c =? 0xA0) || (c =? 0x1680) || in_range 0x2000 0x200A c
  || (c =? 0x2028) || (c =? 0x2029) || (c =? 0x202F) || (c =? 0x205F)
  || (c =? 0x3000).

Definition newline : char := 10.

(** [s.strip()] *)
Definition strip (s : str) : str := strip_by isspace s.

(** The part of the Unicode character database that the program consults
    through [str.lower], [\w], [\b] and [re.IGNORECASE] beyond ASCII.  The
    ASCII range is fixed below; code points from 128 on are looked up
    here. *)
Class Unicode := {
  (** [\w] on a non-ASCII code point: alphanumeric in the database *)
  uni_isword : char -> bool;
  (** [str.lower] on a string that is not pure ASCII *)
  uni_lower : str -> str;
  (** whether a non-ASCII text character matches the lower-case pattern
      letter under [re.IGNORECASE] *)
  uni_ignorecase : char -> char -> bool
}.

(** A database with no cased or alphanumeric character outside ASCII; it
    agrees with Python on every pure-ASCII text. *)
Definition ascii_only : Unicode :=
  {| uni_isword := fun _ => false;
     uni_lower := fun s => s;
     uni_ignorecase := fun _ _ => false |}.

Definition ascii_lower (c : char) : char :=
  if ascii_upper_letter c then c + 32 else c.

Section WithUnicode.
Context {U : Unicode}.

(** [\w]: alphanumeric or underscore. *)
Definition isword (c : char) : bool :=
  if is_ascii c then is_safe_char c else uni_isword c.

(** [s.lower()] *)
Definition lower (s : str) : str :=
  if forallb is_ascii s then map ascii_lower s else uni_lower s.

(** A pattern letter [p] (lower case, ASCII) against a text character under
    [re.IGNORECASE]. *)
Definition ignorecase_match (p c : char) : bool :=
  if is_ascii c then ascii_lower c =? p else uni_ignorecase p c.

End WithUnicode.

(* ================================================================== *)
(** * Decimal formatting, the clock, paths *)
(* ================================================================== *)

(** [str(n)] for a non-negative integer. *)
Definition decimal (n : N) : str :=
  lit (NilEmpty.string_of_uint (N.to_uint n)).

(** [%0wd] *)
Definition zero_pad (w : nat) (s : str) : str :=
  repeat 48 (w - length s) ++ s.

(** What [datetime.now()] returns. *)
Record datetime := {
  year : N; month : N; day : N; hour : N; minute : N; second : N
}.

(** [dt.strftime("%Y%m%d_%H%M%S")] *)
Definition strftime_stamp (dt : datetime) : str :=
  zero_pad 4 (decimal (year dt)) ++ zero_pad 2 (decimal (month dt))
  ++ zero_pad 2 (decimal (day dt)) ++ [underscore]
  ++ zero_pad 2 (decimal (hour dt)) ++ zero_pad 2 (decimal (minute dt))
  ++ zero_pad 2 (decimal (second dt)).

Definition slash : char := 47.

(** [os.path.join(a, b)] (POSIX flavour, two components). *)
Definition path_join (a b : str) : str :=
  if startswith [slash] b then b
  else match rev a with
       | [] => a ++ b
       | c :: _ => if c =? slash then a ++ b else a ++ [slash] ++ b
       end.

(** The part of [s] after its last [sep]; all of [s] when there is none. *)
Fixpoint after_last (sep : char) (s : str) : str :=
  match s with
  | [] => []
  | c :: s' => if existsb (N.eqb sep) s' then after_last sep s'
               else if c =? sep then s' else s
  end.

(** [os.path.basename(p)] *)
Definition basename (p : str) : str := after_last slash p.

Definition OUTPUT_BASE : str := lit "outputs_final".

(* ================================================================== *)
(** * Exceptions *)
(* ================================================================== *)

Inductive exn_class :=
| LangDetectException
| UnicodeEncodeError
| OtherException.

(** A raised exception: its class and [str(e)]. *)
Record exn := mk_exn { exn_kind : exn_class; exn_str : str }.

Inductive result (A : Type) :=
| Ok (a : A)
| Raise (e : exn).
Arguments Ok {A} a.
Arguments Raise {A} e.

(* ================================================================== *)
(** * [str.encode('utf-8')] and [hashlib.md5] *)
(* ================================================================== *)

Definition byte := N.
Definition bytes := list byte.

Definition utf8_char (c : char) : option bytes :=
  if c <? 0x80 then Some [c]
  else if c <? 0x800 then Some [0xC0 + c / 64; 0x80 + c mod 64]
  else if in_range 0xD800 0xDFFF c then None
  else if c <? 0x10000 then
    Some [0xE0 + c / 4096; 0x80 + (c / 64) mod 64; 0x80 + c mod 64]
  else if c <? 0x110000 then
    Some [0xF0 + c / 262144; 0x80 + (c / 4096) mod 64;
          0x80 + (c / 64) mod 64; 0x80 + c mod 64]
  else None.

(** [s.encode('utf-8')]; [None] is [UnicodeEncodeError] (a lone
    surrogate). *)
Fixpoint utf8_encode (s : str) : option bytes :=
  match s with
  | [] => Some []
  | c :: s' =>
      match utf8_char c, utf8_encode s' with
      | Some b, Some bs => Some (b ++ bs)
      | _, _ => None
      end
  end.

Definition encode_error : exn :=
  mk_exn UnicodeEncodeError (lit "'utf-8' codec can't encode character").

(** MD5 (RFC 1321) over byte lists, as [hashlib.md5(b).hexdigest()]. *)
Module MD5.

Definition w32 (x : N) : N := N.land x 0xFFFFFFFF.
Definition add32 (a b : N) : N := w32 (a + b).
Definition not32 (x : N) : N := N.lxor (w32 x) 0xFFFFFFFF.
Definition rotl32 (x s : N) : N :=
  w32 (N.lor (N.shiftl x s) (N.shiftr (w32 x) (32 - s))).

Definition K : list N := [
  0xd76aa478; 0xe8c7b756; 0x242070db; 0xc1bdceee;
  0xf57c0faf; 0x4787c62a; 0xa8304613; 0xfd469501;
  0x698098d8; 0x8b44f7af; 0xffff5bb1; 0x895cd7be;
  0x6b901122; 0xfd987193; 0xa679438e; 0x49b40821;
  0xf61e2562; 0xc040b340; 0x265e5a51; 0xe9b6c7aa;
  0xd62f105d; 0x02441453; 0xd8a1e681; 0xe7d3fbc8;
  0x21e1cde6; 0xc33707d6; 0xf4d50d87; 0x455a14ed;
  0xa9e3e905; 0xfcefa3f8; 0x676f02d9; 0x8d2a4c8a;
  0xfffa3942; 0x8771f681; 0x6d9d6122; 0xfde5380c;
  0xa4beea44; 0x4bdecfa9; 0xf6bb4b60; 0xbebfbc70;
  0x289b7ec6; 0xeaa127fa; 0xd4ef3085; 0x04881d05;
  0xd9d4d039; 0xe6db99e5; 0x1fa27cf8; 0xc4ac5665;
  0xf4292244; 0x432aff97; 0xab9423a7; 0xfc93a039;
  0x655b59c3; 0x8f0ccc92; 0xffeff47d; 0x85845dd1;
  0x6fa87e4f; 0xfe2ce6e0; 0xa3014314; 0x4e0811a1;
  0xf7537e82; 0xbd3af235; 0x2ad7d2bb; 0xeb86d391 ].

Definition shifts : list N := [
  7; 12; 17; 22; 7; 12; 17; 22; 7; 12; 17; 22; 7; 12; 17; 22;
  5; 9; 14; 20; 5; 9; 14; 20; 5; 9; 14; 20; 5; 9; 14; 20;
  4; 11; 16; 23; 4; 11; 16; 23; 4; 11; 16; 23; 4; 11; 16; 23;
  6; 10; 15; 21; 6; 10; 15; 21; 6; 10; 15; 21; 6; 10; 15; 21 ].

Definition state := (N * N * N * N)%type.

Definition init : state := (0x67452301, 0xefcdab89, 0x98badcfe, 0x10325476).

(** One of the 64 operations on the working registers. *)
Definition step (m : list N) (st : state) (i : nat) : state :=
  let '(a, b, c, d) := st in
  let i' := N.of_nat i in
  let '(f, g) :=
    if i' <? 16 then (N.lor (N.land b c) (N.land (not32 b) d), i')
    else if i' <? 32 then
      (N.lor (N.land d b) (N.land (not32 d) c), (5 * i' + 1) mod 16)
    else if i' <? 48 then (N.lxor b (N.lxor c d), (3 * i' + 5) mod 16)
    else (N.lxor c (N.lor b (not32 d)), (7 * i') mod 16) in
  let f' := add32 (add32 (add32 f a) (nth i K 0)) (nth (N.to_nat g) m 0) in
  (d, add32 b (rotl32 f' (nth i shifts 0)), b, c).

(** Little-endian 32-bit words of a block. *)
Fixpoint words (n : nat) (block : bytes) : list N :=
  match n with
  | O => []
  | S n' =>
      match block with
      | b0 :: b1 :: b2 :: b3 :: rest =>
          (b0 + 256 * b1 + 65536 * b2 + 16777216 * b3) :: words n' rest
      | _ => []
      end
  end.

Definition compress (st : state) (block : bytes) : state :=
  let '(a0, b0, c0, d0) := st in
  let '(a, b, c, d) := fold_left (step (words 16 block)) (seq 0 64) st in
  (add32 a0 a, add32 b0 b, add32 c0 c, add32 d0 d).

Fixpoint blocks (n : nat) (data : bytes) : list bytes :=
  match n with
  | O => []
  | S n' => firstn 64 data :: blocks n' (skipn 64 data)
  end.

Fixpoint le_bytes (n : nat) (x : N) : bytes :=
  match n with
  | O => []
  | S n' => (x mod 256) :: le_bytes n' (x / 256)
  end.

Definition pad (data : bytes) : bytes :=
  let l := N.of_nat (length data) in
  data ++ [0x80] ++ repeat 0 (N.to_nat ((119 - l mod 64) mod 64))
       ++ le_bytes 8 ((8 * l) mod 2 ^ 64).

Definition digest (data : bytes) : bytes :=
  let p := pad data in
  let '(a, b, c, d) :=
    fold_left compress (blocks (length p / 64) p) init in
  le_bytes 4 a ++ le_bytes 4 b ++ le_bytes 4 c ++ le_bytes 4 d.

Definition hexdigit (n : N) : char := if n <? 10 then 48 + n else 87 + n.

Definition hexdigest (data : bytes) : str :=
  flat_map (fun b => [hexdigit ((b / 16) mod 16); hexdigit (b mod 16)])
           (digest data).

End MD5.

(** [[0-9a-f]] *)
Definition is_hex_char (c : char) : bool :=
  ascii_digit c || in_range 97 102 c.

(* ================================================================== *)
(** * Helpers of the source: [short_safe_folder] *)
(* ================================================================== *)

(** [re.sub(r'_{2,}', '_', s)]: every run of underscores is left as one
    underscore ([in_run] holds while the scan is inside a run). *)
Fixpoint sub_underscore_runs (in_run : bool) (s : str) : str :=
  match s with
  | [] => []
  | c :: s' =>
      if c =? underscore then
        if in_run then sub_underscore_runs true s'
        else c :: sub_underscore_runs true s'
      else c :: sub_underscore_runs false s'
  end.

(** The two substitutions and the strip that [short_safe_folder] applies:
    the cleaned form of a title. *)
Definition clean_title (title : str) : str :=
  let clean := map (fun c => if is_safe_char c then c else underscore) title in
  strip_by (N.eqb underscore) (sub_underscore_runs false clean).

Definition is_empty {A} (l : list A) : bool :=
  match l with [] => true | _ => false end.

(** [short_safe_folder(title, base_dir, max_len)]; [now] is the reading of
    the clock that [datetime.now()] yields when the fallback is reached. *)
Definition short_safe_folder (now : datetime) (title base_dir : str)
    (max_len : Z) : result str :=
  let title := if is_empty title then lit "article" else title in
  let clean := clean_title title in
  let short :=
    if (len clean <=? max_len)%Z then Ok clean
    else match utf8_encode clean with
         | Some b =>
             let h := slice_to 8 (MD5.hexdigest b) in
             Ok (slice_to (max_len - 9) clean ++ [underscore] ++ h)
         | None => Raise encode_error
         end in
  match short with
  | Ok short =>
      let short :=
        if is_empty short then lit "article_" ++ strftime_stamp now
        else short in
      Ok (path_join base_dir short)
  | Raise e => Raise e
  end.

(* ================================================================== *)
(** * Regular-expression and sorting primitives *)
(* ================================================================== *)

(** One alternative of a split pattern, [(?<=[behind])run+]: an optional
    look-behind class and the class whose maximal run is consumed. *)
Record alt := { behind : option (char -> bool); run : char -> bool }.

Definition alt_starts (prev : option char) (c : char) (a : alt) : bool :=
  run a c &&
  match behind a, prev with
  | None, _ => true
  | Some cls, Some p => cls p
  | Some _, None => false
  end.

(** [re.split(pattern, s)] for a pattern that is a list of such
    alternatives, tried in order at each position.  [consuming] is the run
    class of the match in progress, [prev] the character before the
    position, [cur] the fragment read so far (reversed). *)
Fixpoint re_split (alts : list alt) (consuming : option (char -> bool))
    (prev : option char) (cur : str) (s : str) : list str :=
  match s with
  | [] => [rev cur]
  | c :: s' =>
      if match consuming with Some cls => cls c | None => false end
      then re_split alts consuming (Some c) cur s'
      else match find (alt_starts prev c) alts with
           | Some a => rev cur :: re_split alts (Some (run a)) (Some c) [] s'
           | None => re_split alts None (Some c) (c :: cur) s'
           end
  end.

Definition one_of (cs : list char) (c : char) : bool := existsb (N.eqb c) cs.

(** [(?<=[.!?])\s+|\n+] *)
Definition pattern_en : list alt :=
  [ {| behind := Some (one_of [46; 33; 63]); run := isspace |};
    {| behind := None; run := N.eqb newline |} ].

(** The pattern of the Devanagari branch as the file stores it: the class
    before [!?] holds the three code points U+00E0, U+00A5, U+00A4. *)
Definition pattern_hi : list alt :=
  [ {| behind := Some (one_of [0xE0; 0xA5; 0xA4; 33; 63]); run := isspace |};
    {| behind := Some (one_of [33; 63]); run := isspace |};
    {| behind := None; run := N.eqb newline |} ].

(** [s.replace(k, v)] for a non-empty [k]; [skip] counts the characters of
    a match still to be passed over. *)
Fixpoint str_replace_from (k v : str) (skip : nat) (s : str) : str :=
  match s with
  | [] => []
  | c :: s' =>
      match skip with
      | S n => str_replace_from k v n s'
      | O => if startswith k s
             then v ++ str_replace_from k v (length k - 1) s'
             else c :: str_replace_from k v 0 s'
      end
  end.

Definition str_replace (k v s : str) : str := str_replace_from k v 0 s.

(** Stable insertion: [x] goes before the first element whose key is not
    smaller. *)
Fixpoint insert_by {A} (key : A -> Z) (x : A) (l : list A) : list A :=
  match l with
  | [] => [x]
  | y :: l' => if (key x <=? key y)%Z then x :: l
               else y :: insert_by key x l'
  end.

Definition stable_sort {A} (key : A -> Z) (l : list A) : list A :=
  fold_right (insert_by key) [] l.

(** [sorted(l, key=key, reverse=reverse)]: a stable sort; with [reverse]
    the list is reversed before and after sorting, which keeps elements of
    equal key in their original order. *)
Definition sorted {A} (key : A -> Z) (reverse : bool) (l : list A) : list A :=
  if reverse then rev (stable_sort key (rev l)) else stable_sort key l.

(** [enumerate(l)] *)
Definition enumerate {A} (l : list A) : list (nat * A) :=
  combine (seq 0 (length l)) l.

(** [d.get(i)] on a dict kept as its items in insertion order. *)
Definition dict_get (d : list (nat * Z)) (i : nat) : Z :=
  match find (fun p => Nat.eqb (fst p) i) d with
  | Some p => snd p
  | None => 0%Z
  end.

Definition sum_Z (l : list Z) : Z := fold_right Z.add 0%Z l.

Section Text.
Context {U : Unicode}.

(** [re.findall(r'\w+', s)]: the maximal runs of word characters; [cur] is
    the run being read (reversed). *)
Fixpoint findall_words (cur : str) (s : str) : list str :=
  match s with
  | [] => match cur with [] => [] | _ => [rev cur] end
  | c :: s' =>
      if isword c then findall_words (c :: cur) s'
      else match cur with
           | [] => findall_words [] s'
           | _ => rev cur :: findall_words [] s'
           end
  end.

Definition opt_isword (c : option char) : bool :=
  match c with Some c => isword c | None => false end.

(** [\b] between two neighbouring positions ([None] is an end of the
    string). *)
Definition boundary (before after : option char) : bool :=
  xorb (opt_isword before) (opt_isword after).

(** The literal [k] against a prefix of [s] under [re.IGNORECASE]; yields
    what follows the match. *)
Fixpoint match_literal (k s : str) : option str :=
  match k, s with
  | [], _ => Some s
  | _ :: _, [] => None
  | p :: k', c :: s' => if ignorecase_match p c then match_literal k' s' else None
  end.

(** Whether [\b k \b] matches at the position before [s], the character
    before it being [prev]. *)
Definition word_match_at (k : str) (prev : option char) (s : str) : bool :=
  boundary prev (hd_error s) &&
  match match_literal k s with
  | Some rest => boundary (nth_error s (length k - 1)) (hd_error rest)
  | None => false
  end.

(** [re.sub(r'\b' + re.escape(k) + r'\b', v, s, flags=re.IGNORECASE)] for
    a key [k] of lower-case letters. *)
Fixpoint re_sub_word_from (k v : str) (prev : option char) (skip : nat)
    (s : str) : str :=
  match s with
  | [] => []
  | c :: s' =>
      match skip with
      | S n => re_sub_word_from k v (Some c) n s'
      | O => if word_match_at k prev s
             then v ++ re_sub_word_from k v (Some c) (length k - 1) s'
             else c :: re_sub_word_from k v (Some c) 0 s'
      end
  end.

Definition re_sub_word (k v s : str) : str := re_sub_word_from k v None 0 s.

(* ================================================================== *)
(** * Summariser and paraphraser *)
(* ================================================================== *)

(** The branch test shared by [split_sentences] and [paraphrase_text]. *)
Definition devanagari_branch (lang text : str) : bool :=
  startswith (lit "hi") lang || existsb is_devanagari text.

Definition split_sentences (text lang : str) : list str :=
  let text := strip text in
  if is_empty text then []
  else
    let sents :=
      if devanagari_branch lang text
      then re_split pattern_hi None None [] text
      else re_split pattern_en None None [] text in
    map strip (filter (fun s => negb (is_empty (strip s))) sents).

(** [Counter(words).get(w, 0)] *)
Definition freq_get (words : list str) (w : str) : Z :=
  Z.of_nat (count_occ (list_eq_dec N.eq_dec) words w).

(** The score line 102 gives a sentence [s] of [text]. *)
Definition sentence_score (text s : str) : Z :=
  let words := map lower (findall_words [] text) in
  sum_Z (map (fun w => freq_get words (lower w)) (findall_words [] s)).

Definition extractive_summary (text : str) (max_sentences : Z) (lang : str)
    : str :=
  let sents := split_sentences text lang in
  if is_empty sents then []
  else if (len sents <=? max_sentences)%Z then join (lit " ") sents
  else
    let scores := map (fun p => (fst p, sentence_score text (snd p)))
                      (enumerate sents) in
    let top_idx :=
      slice_to max_sentences (sorted (dict_get scores) true (map fst scores)) in
    let top_sorted := sorted Z.of_nat false top_idx in
    join (lit " ") (map (fun i => nth i sents []) top_sorted).

(** The Devanagari synonym table as the file stores it (its literals are
    UTF-8 text re-read as Windows-1252, so each intended character is three
    code points); in insertion order. *)
Definition syn_hi : list (str * str) :=
  [ ([0xe0; 0xa4; 0x2022; 0xe0; 0xa4; 0xb9; 0xe0; 0xa4; 0xbe],
     [0xe0; 0xa4; 0xac; 0xe0; 0xa4; 0xa4; 0xe0; 0xa4; 0xbe; 0xe0; 0xa4; 0xaf;
      0xe0; 0xa4; 0xbe]);
    ([0xe0; 0xa4; 0xac; 0xe0; 0xa4; 0xa4; 0xe0; 0xa4; 0xbe; 0xe0; 0xa4; 0xaf;
      0xe0; 0xa4; 0xbe],
     [0xe0; 0xa4; 0xb8; 0xe0; 0xa5; 0x201a; 0xe0; 0xa4; 0x161; 0xe0; 0xa4;
      0xbf; 0xe0; 0xa4; 0xa4; 0x20; 0xe0; 0xa4; 0x2022; 0xe0; 0xa4; 0xbf;
      0xe0; 0xa4; 0xaf; 0xe0; 0xa4; 0xbe]);
    ([0xe0; 0xa4; 0x2022; 0xe0; 0xa4; 0xbf; 0xe0; 0xa4; 0xaf; 0xe0; 0xa4; 0xbe],
     [0xe0; 0xa4; 0x2026; 0xe0; 0xa4; 0x201a; 0xe0; 0xa4; 0x153; 0xe0; 0xa4;
      0xbe; 0xe0; 0xa4; 0xae; 0x20; 0xe0; 0xa4; 0xa6; 0xe0; 0xa4; 0xbf; 0xe0;
      0xa4; 0xaf; 0xe0; 0xa4; 0xbe]) ].

Definition syn_en : list (str * str) :=
  [ (lit "said", lit "stated"); (lit "shows", lit "reveals");
    (lit "important", lit "crucial"); (lit "use", lit "utilize");
    (lit "many", lit "numerous") ].

Definition paraphrase_text (text lang : str) : str :=
  if is_empty text then []
  else if devanagari_branch lang text
  then fold_left (fun out kv => str_replace (fst kv) (snd kv) out) syn_hi text
  else fold_left (fun out kv => re_sub_word (fst kv) (snd kv) out) syn_en text.

(** The last character of a string, if any. *)
Definition last_opt (s : str) : option char := hd_error (rev s).

(** The key [k] occurs in [text] as a case-insensitive whole word: some
    stretch [w] of the text matches [k] letter by letter under
    [re.IGNORECASE], with a word boundary on either side of it. *)
Definition occurs_as_word (k text : str) : Prop :=
  exists pre w post,
    text = pre ++ w ++ post /\
    Forall2 (fun p c => ignorecase_match p c = true) k w /\
    boundary (last_opt pre) (hd_error w) = true /\
    boundary (last_opt w) (hd_error post) = true.

(** [re.search(r'\b' + k + r'\b', s, re.IGNORECASE) is not None], the
    character before [s] being [prev]. *)
Fixpoint word_search (k : str) (prev : option char) (s : str) : bool :=
  match s with
  | [] => false
  | c :: s' => word_match_at k prev s || word_search k (Some c) s'
  end.

End Text.

(* ================================================================== *)
(** * The host: effects as state passing *)
(* ================================================================== *)

(** A computation reads and changes the state [W] of the outside world
    (disk, network, browser, random generator) and either returns a value
    or raises; what it did to the world before raising stays done. *)
Definition M (W A : Type) : Type := W -> result A * W.

Definition ret {W A} (a : A) : M W A := fun w => (Ok a, w).

Definition raise {W A} (e : exn) : M W A := fun w => (Raise e, w).

Definition bind {W A B} (c : M W A) (k : A -> M W B) : M W B :=
  fun w => match c w with
           | (Ok a, w') => k a w'
           | (Raise e, w') => (Raise e, w')
           end.

(** [try: c  except Exception as e: handler e] *)
Definition try_except {W A} (c : M W A) (handler : exn -> M W A) : M W A :=
  fun w => match c w with
           | (Ok a, w') => (Ok a, w')
           | (Raise e, w') => handler e w'
           end.

Definition lift {W A} (r : result A) : M W A := fun w => (r, w).

Definition gets {W A} (f : W -> A) : M W A := fun w => (Ok (f w), w).

Notation "x <- c ;; k" := (bind c (fun x => k))
  (at level 61, c at next level, right associativity).
Notation "c ;;; k" := (bind c (fun _ => k))
  (at level 61, right associativity).

(** An [<img>] element: the three attributes the harvester reads. *)
Record img_tag := {
  attr_src : option str;
  attr_data_src : option str;
  attr_data_lazy_src : option str
}.

(** What [requests.get(..., stream=True)] returns: the status line and the
    connection the body is streamed from. *)
Record response := { status_code : Z; connection : N }.

(** The values of the Streamlit widgets, which the pipeline reads as
    module globals. *)
Record Config := {
  headless : bool;
  wait_time : Z;
  summary_sentences : Z;
  do_paraphrase : bool;
  ignore_ssl : bool;
  max_images : Z
}.

(** The calls that leave the program.  The three fetchers, the two
    extractors and the three document writers are functions of the source
    whose bodies are straight-line calls into third-party libraries
    (requests, cloudscraper, selenium, BeautifulSoup, python-docx, fpdf);
    the pipeline sees of each only the value returned or the exception
    raised. *)
Record Host (W : Type) := {
  clock : W -> datetime;
  file_exists : W -> str -> bool;
  cloudscraper_installed : bool;
  fetch_requests : str -> bool -> M W str;
  fetch_cloudscraper : str -> bool -> M W str;
  fetch_selenium : str -> bool -> Z -> bool -> Z -> M W str;
  extract_text_from_html : str -> str;
  extract_title_from_html : str -> str;
  detect : str -> M W str;
  os_makedirs : str -> M W unit;
  find_all_img : str -> list img_tag;
  requests_get : str -> bool -> M W response;
  path_suffix : str -> str;
  write_body : str -> response -> M W unit;
  image_verify : str -> M W unit;
  os_remove : str -> M W unit;
  save_docx : str -> str -> str -> str -> M W unit;
  save_pdf : str -> str -> str -> str -> M W unit;
  save_txt : str -> str -> str -> str -> M W unit
}.

(** The result record of a successfully processed URL. *)
Record bundle := {
  b_url : str;
  b_title : str;
  b_folder : str;
  b_images : list str;
  b_docx : str;
  b_pdf : str;
  b_txt : str;
  b_summary : str
}.

(** What [process_url_pipeline] returns: the record or [None], and the
    status. *)
Definition outcome := (option bundle * str)%type.

(** [str(n)] for a Python integer. *)
Definition int_str (z : Z) : str :=
  if (z <? 0)%Z then 45 :: decimal (Z.to_N (- z)) else decimal (Z.to_N z).

(** [a or b] on attribute values. *)
Definition py_or (a b : option str) : option str :=
  match a with
  | Some (_ :: _) => a
  | _ => b
  end.

Definition or_empty (a : option str) : str :=
  match a with Some s => s | None => [] end.

Definition is_none {A} (a : option A) : bool :=
  match a with Some _ => false | None => true end.

Section Pipeline.
Context {U : Unicode}.
Variable W : Type.
Variable H : Host W.
Variable cfg : Config.

Definition detect_language (text : str) : M W str :=
  try_except (detect H (slice_to 1000 text))
    (fun e => match exn_kind e with
              | LangDetectException =>
                  ret (if existsb is_devanagari text then lit "hi" else lit "en")
              | _ => ret (lit "en")
              end).

(* ------------------------------------------------------------------ *)
(** ** Image harvester *)

(** [r.raise_for_status()] *)
Definition raise_for_status (r : response) : M W unit :=
  if ((400 <=? status_code r) && (status_code r <? 600))%Z
  then raise (mk_exn OtherException (lit "HTTPError"))
  else ret tt.

(** Lines 238-246: download [src] into the folder under the name the
    counter [c] gives; returns the path written. *)
Definition fetch_image (folder src : str) (ignore_ssl : bool) (c : Z)
    : M W str :=
  r <- requests_get H src (negb ignore_ssl) ;;
  raise_for_status r ;;;
  let suffix := path_suffix H src in
  let ext := if negb (is_empty suffix) && (len suffix <=? 6)%Z
             then suffix else lit ".jpg" in
  let filename := lit "img_" ++ int_str (c + 1) ++ ext in
  let outpath := path_join folder filename in
  write_body H outpath r ;;;
  ret outpath.

(** Lines 248-253: [true] when the written file decodes as an image;
    otherwise its removal is attempted, a failure of the removal being
    swallowed. *)
Definition verify_or_remove (outpath : str) : M W bool :=
  try_except (image_verify H outpath ;;; ret true)
    (fun _ =>
       try_except (os_remove H outpath) (fun _ => ret tt) ;;;
       ret false).

(** The URL the loop takes from a tag, when it goes on to download it. *)
Definition image_source (img : img_tag) : option str :=
  match py_or (py_or (attr_src img) (attr_data_src img))
              (attr_data_lazy_src img) with
  | Some ((_ :: _) as src) =>
      let src := strip src in
      if startswith (lit "http") (lower src) then Some src else None
  | _ => None
  end.

(** One pass through the loop body (after the cap test) on the state
    [(saved_paths, c)]. *)
Definition harvest_one (folder : str) (ignore_ssl : bool) (img : img_tag)
    (st : list str * Z) : M W (list str * Z) :=
  let '(saved_paths, c) := st in
  match image_source img with
  | None => ret st
  | Some src =>
      try_except
        (outpath <- fetch_image folder src ignore_ssl c ;;
         valid <- verify_or_remove outpath ;;
         if valid : bool then ret (saved_paths ++ [outpath], (c + 1)%Z)
         else ret st)
        (fun _ => ret st)
  end.

Fixpoint harvest_loop (folder : str) (ignore_ssl : bool) (max_images : Z)
    (imgs : list img_tag) (st : list str * Z) : M W (list str * Z) :=
  match imgs with
  | [] => ret st
  | img :: rest =>
      if (snd st >=? max_images)%Z then ret st
      else st' <- harvest_one folder ignore_ssl img st ;;
           harvest_loop folder ignore_ssl max_images rest st'
  end.

Definition download_images_from_html (html folder : str) (ignore_ssl : bool)
    (max_images : Z) : M W (list str) :=
  let imgs := find_all_img H html in
  st <- harvest_loop folder ignore_ssl max_images imgs ([], 0%Z) ;;
  ret (fst st).

(* ------------------------------------------------------------------ *)
(** ** [process_url_pipeline] *)

(** Lines 317-334, the three fetch tiers: the final HTML, or the early
    return of a failed browser fetch. *)
Definition fetch_html (url : str) : M W (outcome + str) :=
  html <- try_except
            (h <- fetch_requests H url (negb (ignore_ssl cfg)) ;; ret (Some h))
            (fun _ => ret None) ;;
  html <- (if is_none html && cloudscraper_installed H
           then try_except
                  (h <- fetch_cloudscraper H url (negb (ignore_ssl cfg)) ;;
                   ret (Some h))
                  (fun _ => ret None)
           else ret html) ;;
  if is_none html
     || contains (lit "access denied") (lower (or_empty html))
     || contains (lit "Request blocked") (or_empty html)
  then try_except
         (h <- fetch_selenium H url (headless cfg) (wait_time cfg) true 20 ;;
          ret (inr h))
         (fun e => ret (inl (None, lit "fetch_error: " ++ exn_str e)))
  else ret (inr (or_empty html)).

(** The access-denied heuristic of line 340. *)
Definition access_denied_page (html : str) : bool :=
  let low := lower html in
  contains (lit "access denied") low && contains (lit "reference") low.

(** [a or b] on strings. *)
Definition str_or (a b : str) : str := if is_empty a then b else a.

(** Lines 336-360: everything between the fetch and the document writes;
    yields an early return or the record that will be returned if the
    writes succeed. *)
Definition prepare (url html : str) : M W (outcome + bundle) :=
  if is_empty html then ret (inl (None, lit "no_html"))
  else if access_denied_page html then ret (inl (None, lit "access_denied"))
  else
    let text := extract_text_from_html H html in
    lang <- detect_language text ;;
    let summary := extractive_summary text (summary_sentences cfg) lang in
    let paraphrased :=
      if do_paraphrase cfg then paraphrase_text summary lang else summary in
    let title := str_or (str_or (extract_title_from_html H html)
                                (after_last slash url)) (lit "article") in
    now <- gets (clock H) ;;
    folder <- lift (short_safe_folder now title OUTPUT_BASE 60) ;;
    folder <- try_except (os_makedirs H folder ;;; ret folder)
                (fun _ =>
                   match utf8_encode title with
                   | None => raise encode_error
                   | Some b =>
                       let folder :=
                         path_join OUTPUT_BASE
                           (lit "article_" ++ slice_to 8 (MD5.hexdigest b)) in
                       os_makedirs H folder ;;; ret folder
                   end) ;;
    images <- download_images_from_html html folder (ignore_ssl cfg)
                (max_images cfg) ;;
    now <- gets (clock H) ;;
    let ts := strftime_stamp now in
    ret (inr {| b_url := url; b_title := title; b_folder := folder;
                b_images := images;
                b_docx := path_join folder (lit "summary_" ++ ts ++ lit ".docx");
                b_pdf := path_join folder (lit "summary_" ++ ts ++ lit ".pdf");
                b_txt := path_join folder (lit "summary_" ++ ts ++ lit ".txt");
                b_summary := paraphrased |}).

(** Lines 361-364: the three document writes, in order. *)
Definition save_all (b : bundle) : M W unit :=
  save_docx H (b_title b) (b_url b) (b_summary b) (b_docx b) ;;;
  save_pdf H (b_title b) (b_url b) (b_summary b) (b_pdf b) ;;;
  save_txt H (b_title b) (b_url b) (b_summary b) (b_txt b).

(** Lines 361-377. *)
Definition persist (b : bundle) : M W outcome :=
  try_except (save_all b ;;; ret (Some b, lit "ok"))
    (fun e => ret (None, lit "save_error: " ++ exn_str e)).

Definition process_url_pipeline (url : str) : M W outcome :=
  let url := strip url in
  if is_empty url then ret (None, lit "empty")
  else
    r <- fetch_html url ;;
    match r with
    | inl out => ret out
    | inr html =>
        r <- prepare url html ;;
        match r with
        | inl out => ret out
        | inr b => persist b
        end
    end.

End Pipeline.

(* ================================================================== *)
(** * Specification vocabulary *)
(* ================================================================== *)

(** The order [sorted(..., key=key, reverse=True)] puts two positions in:
    [i] ranks before [j] when its key is larger, or equal with [i] the
    lower position. *)
Definition ranks_before (key : nat -> Z) (i j : nat) : Prop :=
  (key j < key i)%Z \/ (key j = key i /\ (i < j)%nat).

(** What the host promises of a removal that returns: the file is gone. *)
Definition remove_law {W} (H : Host W) : Prop :=
  forall p w w', os_remove H p w = (Ok tt, w') -> file_exists H w' p = false.

(** One of the three document writes of [b] raises [e], the ones before it
    having returned; [w'] is the world it leaves. *)
Definition write_throws {W} (H : Host W) (b : bundle) (w : W) (e : exn)
    (w' : W) : Prop :=
  save_docx H (b_title b) (b_url b) (b_summary b) (b_docx b) w = (Raise e, w')
  \/ exists wa,
       save_docx H (b_title b) (b_url b) (b_summary b) (b_docx b) w
       = (Ok tt, wa) /\
       (save_pdf H (b_title b) (b_url b) (b_summary b) (b_pdf b) wa
        = (Raise e, w')
        \/ exists wb,
             save_pdf H (b_title b) (b_url b) (b_summary b) (b_pdf b) wa
             = (Ok tt, wb) /\
             save_txt H (b_title b) (b_url b) (b_summary b) (b_txt b) wb
             = (Raise e, w')).

(** All three document writes of [b] return, leaving [w']. *)
Definition writes_succeed {W} (H : Host W) (b : bundle) (w w' : W) : Prop :=
  exists wa wb,
    save_docx H (b_title b) (b_url b) (b_summary b) (b_docx b) w = (Ok tt, wa)
    /\ save_pdf H (b_title b) (b_url b) (b_summary b) (b_pdf b) wa
       = (Ok tt, wb)
    /\ save_txt H (b_title b) (b_url b) (b_summary b) (b_txt b) wb
       = (Ok tt, w').

(* ================================================================== *)
(** * A scripted host *)
(* ================================================================== *)

(** A small outside world on which the model runs: the disk is the list of
    files present, each with the connection its content came from, and a
    script fixes what the network, the browser and the libraries answer. *)
Module Scripted.

Record script := {
  page : result str;
  browser_page : result str;
  page_text : str;
  page_title : str;
  tags : list img_tag;
  respond : str -> response;
  decodes : N -> bool;
  remove_denied : bool;
  pdf_error : option exn
}.

Definition world := list (str * N).

Definition on_disk (w : world) (p : str) : bool :=
  existsb (fun f => str_eqb (fst f) p) w.

Definition noon : datetime :=
  {| year := 2024; month := 3; day := 7;
     hour := 12; minute := 0; second := 0 |}.

Definition error (msg : string) : exn := mk_exn OtherException (lit msg).

Definition write (p : str) (content : N) : M world unit :=
  fun w => (Ok tt, (p, content) :: w).

Definition host (s : script) : Host world :=
  {| clock := fun _ => noon;
     file_exists := on_disk;
     cloudscraper_installed := false;
     fetch_requests := fun _ _ => lift (page s);
     fetch_cloudscraper := fun _ _ => raise (error "cloudscraper not installed");
     fetch_selenium := fun _ _ _ _ _ => lift (browser_page s);
     extract_text_from_html := fun _ => page_text s;
     extract_title_from_html := fun _ => page_title s;
     detect := fun _ => ret (lit "en");
     os_makedirs := fun _ => ret tt;
     find_all_img := fun _ => tags s;
     requests_get := fun url _ => ret (respond s url);
     path_suffix := fun _ => lit ".png";
     write_body := fun p r => write p (connection r);
     image_verify := fun p w =>
       match find (fun f => str_eqb (fst f) p) w with
       | Some f => if decodes s (snd f) then (Ok tt, w)
                   else (Raise (error "cannot identify image file"), w)
       | None => (Raise (error "No such file or directory"), w)
       end;
     os_remove := fun p w =>
       if remove_denied s then (Raise (error "Permission denied"), w)
       else if on_disk w p
       then (Ok tt, filter (fun f => negb (str_eqb (fst f) p)) w)
       else (Raise (error "No such file or directory"), w);
     save_docx := fun _ _ _ p => write p 0;
     save_pdf := fun _ _ _ p =>
       match pdf_error s with
       | Some e => raise e
       | None => write p 0
       end;
     save_txt := fun _ _ _ p => write p 0 |}.

Definition src_tag (url : string) : img_tag :=
  {| attr_src := Some (lit url); attr_data_src := None;
     attr_data_lazy_src := None |}.

Definition bad_png : img_tag := src_tag "http://x/bad.png".
Definition good_png : img_tag := src_tag "http://x/good.png".

(** An article page with the image tags [imgs]; the connection to
    [bad.png] delivers bytes that do not decode, any other a good image.
    [locked] makes every removal fail, [pdf] is what the PDF writer
    raises. *)
Definition gallery (imgs : list img_tag) (locked : bool) (pdf : option exn)
    : script :=
  {| page := Ok (lit "<html><p>One two. One two. Six. One two.</p></html>");
     browser_page := Raise (error "no browser");
     page_text := lit "One two. One two. Six. One two.";
     page_title := lit "My Article!!";
     tags := imgs;
     respond := fun url =>
       {| status_code := 200;
          connection := if str_eqb url (lit "http://x/bad.png") then 1 else 2 |};
     decodes := fun c => c =? 2;
     remove_denied := locked;
     pdf_error := pdf |}.

(** A blocking page, served by the plain fetch and by the browser. *)
Definition blocked : script :=
  {| page := Ok (lit "<h1>Access Denied</h1> Reference #18.2f");
     browser_page := Ok (lit "<H1>ACCESS DENIED</H1> Reference #18.2f");
     page_text := [];
     page_title := [];
     tags := [];
     respond := fun _ => {| status_code := 403; connection := 0 |};
     decodes := fun _ => false;
     remove_denied := false;
     pdf_error := None |}.

Definition config : Config :=
  {| headless := true; wait_time := 5; summary_sentences := 2;
     do_paraphrase := true; ignore_ssl := true; max_images := 50 |}.

End Scripted.

(* ================================================================== *)
(** * The batch loop, and further vocabulary *)
(* ================================================================== *)

Section Batch.
Context {U : Unicode}.
Variable W : Type.
Variable H : Host W.
Variable cfg : Config.

(** Lines 415-421: the loop of the batch mode over the non-blank lines,
    on the state [(succ, fail, results)]. *)
Fixpoint batch_loop (lines : list str) (st : Z * Z * list bundle)
    : M W (Z * Z * list bundle) :=
  match lines with
  | [] => ret st
  | u :: rest =>
      r <- process_url_pipeline H cfg u ;;
      let '(succ, fail, results) := st in
      match r with
      | (Some res, status) =>
          if str_eqb status (lit "ok")
          then batch_loop rest ((succ + 1)%Z, fail, results ++ [res])
          else batch_loop rest (succ, (fail + 1)%Z, results)
      | (None, _) => batch_loop rest (succ, (fail + 1)%Z, results)
      end
  end.

End Batch.

(** The characters of [s] other than whitespace, in order. *)
Definition nonspace (s : str) : str := filter (fun c => negb (isspace c)) s.

(** The separators of a split are runs of whitespace. *)
Definition splits_on_space (alts : list alt) : Prop :=
  forall a c, In a alts -> run a c = true -> isspace c = true.

(** The ranges [datetime] keeps its fields in. *)
Definition valid_datetime (dt : datetime) : Prop :=
  year dt <= 9999 /\ month dt <= 12 /\ day dt <= 31 /\
  hour dt <= 23 /\ minute dt <= 59 /\ second dt <= 59.

(** The extension line 240 gives the file of [src]. *)
Definition image_ext {W} (H : Host W) (src : str) : str :=
  let suffix := path_suffix H src in
  if negb (is_empty suffix) && (len suffix <=? 6)%Z then suffix
  else lit ".jpg".

(** The name line 241 gives the file of [src] when [n - 1] images are
    saved. *)
Definition image_path {W} (H : Host W) (folder : str) (n : Z) (src : str)
    : str :=
  path_join folder (lit "img_" ++ int_str n ++ image_ext H src).

(** The saved list is numbered from 1 without a gap, each path coming from
    a tag among [imgs]. *)
Definition numbered {U : Unicode} {W} (H : Host W) (folder : str)
    (imgs : list img_tag) (st : list str * Z) : Prop :=
  snd st = len (fst st) /\
  forall i p,
    nth_error (fst st) i = Some p ->
    exists img src,
      In img imgs /\ image_source img = Some src /\
      p = image_path H folder (Z.of_nat i + 1) src.

(** The statuses of a run that returns no record. *)
Definition failure_status (st : str) : Prop :=
  st = lit "empty" \/ st = lit "no_html" \/ st = lit "access_denied" \/
  (exists e, st = lit "fetch_error: " ++ exn_str e) \/
  (exists e, st = lit "save_error: " ++ exn_str e).

(** The scripted host on a disk where no directory can be created. *)
Module ReadOnly.

Definition host (s : Scripted.script) : Host Scripted.world :=
  {| clock := clock (Scripted.host s);
     file_exists := file_exists (Scripted.host s);
     cloudscraper_installed := cloudscraper_installed (Scripted.host s);
     fetch_requests := fetch_requests (Scripted.host s);
     fetch_cloudscraper := fetch_cloudscraper (Scripted.host s);
     fetch_selenium := fetch_selenium (Scripted.host s);
     extract_text_from_html := extract_text_from_html (Scripted.host s);
     extract_title_from_html := extract_title_from_html (Scripted.host s);
     detect := detect (Scripted.host s);
     os_makedirs := fun _ => raise (Scripted.error "Read-only file system");
     find_all_img := find_all_img (Scripted.host s);
     requests_get := requests_get (Scripted.host s);
     path_suffix := path_suffix (Scripted.host s);
     write_body := write_body (Scripted.host s);
     image_verify := image_verify (Scripted.host s);
     os_remove := os_remove (Scripted.host s);
     save_docx := save_docx (Scripted.host s);
     save_pdf := save_pdf (Scripted.host s);
     save_txt := save_txt (Scripted.host s) |}.

End ReadOnly.

(** Further scripts for the scripted host. *)
Module Scenes.

(** An article that merely mentions the words [access denied]; no browser
    can be started. *)
Definition mention : Scripted.script :=
  {| Scripted.page := Ok (lit "<p>The server said access denied twice.</p>");
     Scripted.browser_page := Raise (Scripted.error "chrome not found");
     Scripted.page_text := lit "The server said access denied twice.";
     Scripted.page_title := lit "Report";
     Scripted.tags := [];
     Scripted.respond := fun _ => {| status_code := 200; connection := 2 |};
     Scripted.decodes := fun _ => true;
     Scripted.remove_denied := false;
     Scripted.pdf_error := None |}.

(** A server that answers 200 with an empty body. *)
Definition empty_body : Scripted.script :=
  {| Scripted.page := Ok [];
     Scripted.browser_page := Ok (lit "<p>Rendered late.</p>");
     Scripted.page_text := [];
     Scripted.page_title := [];
     Scripted.tags := [];
     Scripted.respond := fun _ => {| status_code := 200; connection := 2 |};
     Scripted.decodes := fun _ => true;
     Scripted.remove_denied := false;
     Scripted.pdf_error := None |}.



End Scenes.

(** As [break_matches], keeping the equation of every case. *)
Ltac break_matches_eqn E :=
  repeat (cbv beta iota in E;
          match type of E with
          | context [match ?x with _ => _ end] =>
              lazymatch x with
              | context [match _ with _ => _ end] => fail
              | _ => destruct x eqn:?
              end
          end).

(** Case analysis on every scrutinee in hypothesis [E]. *)
Ltac break_matches E :=
  repeat (cbv beta iota in E;
          match type of E with
          | context [match ?x with _ => _ end] =>
              lazymatch x with
              | context [match _ with _ => _ end] => fail
              | _ => destruct x
              end
          end).

(* ================================================================== *)
(** * Properties of the string and path helpers *)
(* ================================================================== *)

Lemma startswith_app (p s : str) : startswith p (p ++ s) = true.
Proof.
  induction p as [|a p IH]; simpl; [reflexivity|].
  now rewrite N.eqb_refl.
Qed.

Lemma lstrip_by_all (f : char -> bool) (s : str) :
  forallb f s = true -> lstrip_by f s = [].
Proof.
  induction s as [|c s IH]; simpl; [reflexivity|].
  intros Hc. apply andb_prop in Hc as [Hc Hs]. now rewrite Hc, IH.
Qed.

Lemma lstrip_by_suffix (f : char -> bool) (s : str) :
  exists pre, s = pre ++ lstrip_by f s.
Proof.
  induction s as [|c s [pre IH]]; simpl.
  - now exists [].
  - destruct (f c).
    + exists (c :: pre). simpl. now f_equal.
    + now exists [].
Qed.

Lemma strip_by_pieces (f : char -> bool) (s : str) :
  exists pre post, s = pre ++ strip_by f s ++ post.
Proof.
  unfold strip_by, rstrip_by.
  destruct (lstrip_by_suffix f s) as [pre Hpre].
  destruct (lstrip_by_suffix f (rev (lstrip_by f s))) as [post Hpost].
  exists pre, (rev post).
  rewrite <- rev_app_distr, <- Hpost, rev_involutive. exact Hpre.
Qed.

Lemma strip_by_Forall (P : char -> Prop) (f : char -> bool) (s : str) :
  Forall P s -> Forall P (strip_by f s).
Proof.
  intros Hs. destruct (strip_by_pieces f s) as (pre & post & E).
  rewrite E in Hs. apply Forall_app in Hs as [_ Hs].
  now apply Forall_app in Hs as [Hs _].
Qed.

Lemma sub_underscore_runs_Forall (P : char -> Prop) (s : str) (b : bool) :
  Forall P s -> Forall P (sub_underscore_runs b s).
Proof.
  intros Hs. revert b.
  induction Hs as [|c s Hc Hs IH]; intros b; simpl; [constructor|].
  destruct (c =? underscore); [destruct b|]; auto.
Qed.

Lemma after_last_none (sep : char) (s : str) :
  existsb (N.eqb sep) s = false -> after_last sep s = s.
Proof.
  destruct s as [|c s]; simpl; [reflexivity|].
  intros Hn. apply orb_false_elim in Hn as [Hc Hs].
  rewrite Hs. rewrite N.eqb_sym in Hc. now rewrite Hc.
Qed.

Lemma after_last_app (sep : char) (a b : str) :
  existsb (N.eqb sep) b = false -> after_last sep (a ++ sep :: b) = b.
Proof.
  intros Hb. induction a as [|c a IH]; simpl.
  - now rewrite Hb, N.eqb_refl.
  - rewrite existsb_app. simpl. rewrite N.eqb_refl, orb_true_r. exact IH.
Qed.

(** A component without a slash is the basename of whatever it is joined
    to. *)
Lemma basename_path_join (a b : str) :
  existsb (N.eqb slash) b = false -> basename (path_join a b) = b.
Proof.
  intros Hb. unfold basename, path_join.
  destruct b as [|c b'] eqn:Eb.
  - simpl. destruct (rev a) as [|x r] eqn:Er.
    + apply (f_equal (@rev _)) in Er. rewrite rev_involutive in Er.
      now subst a.
    + apply (f_equal (@rev _)) in Er. rewrite rev_involutive in Er.
      simpl in Er. subst a. destruct (x =? slash) eqn:Ex.
      * apply N.eqb_eq in Ex. subst x. rewrite app_nil_r.
        now rewrite after_last_app.
      * now rewrite after_last_app.
  - rewrite <- Eb in *.
    assert (Hs : startswith [slash] b = false).
    { subst b. simpl in *. apply orb_false_elim in Hb as [Hc _].
      now rewrite Hc. }
    rewrite Hs. destruct (rev a) as [|x r] eqn:Er.
    + apply (f_equal (@rev _)) in Er. rewrite rev_involutive in Er.
      subst a. simpl. now apply after_last_none.
    + apply (f_equal (@rev _)) in Er. rewrite rev_involutive in Er.
      simpl in Er. subst a. destruct (x =? slash) eqn:Ex.
      * apply N.eqb_eq in Ex. subst x. rewrite <- app_assoc. simpl.
        now apply after_last_app.
      * simpl. now apply after_last_app.
Qed.

Lemma safe_char_not_slash (c : char) :
  is_safe_char c = true -> (slash =? c) = false.
Proof.
  unfold is_safe_char, ascii_upper_letter, ascii_lower_letter, ascii_digit,
    in_range, underscore, slash.
  intros Hc. apply N.eqb_neq. intros <-. discriminate Hc.
Qed.

Lemma safe_char_ascii (c : char) : is_safe_char c = true -> c < 128.
Proof.
  unfold is_safe_char, ascii_upper_letter, ascii_lower_letter, ascii_digit,
    in_range, underscore.
  intros Hc.
  repeat (apply orb_prop in Hc as [Hc|Hc]);
    try (apply andb_prop in Hc as [_ Hc]; apply N.leb_le in Hc; lia).
  apply N.eqb_eq in Hc. lia.
Qed.

Lemma hex_char_safe (c : char) : is_hex_char c = true -> is_safe_char c = true.
Proof.
  unfold is_hex_char, is_safe_char, ascii_upper_letter, ascii_lower_letter,
    ascii_digit, in_range, underscore.
  intros Hc. apply orb_prop in Hc as [Hc|Hc].
  - rewrite Hc. now rewrite orb_true_r.
  - apply andb_prop in Hc as [H1 H2]. apply N.leb_le in H1, H2.
    assert (E : ((97 <=? c) && (c <=? 122)) = true).
    { apply andb_true_intro. split; apply N.leb_le; lia. }
    rewrite E. now rewrite orb_true_r.
Qed.

Lemma no_slash_of_safe (s : str) :
  Forall (fun c => is_safe_char c = true) s ->
  existsb (N.eqb slash) s = false.
Proof.
  induction 1 as [|c s Hc Hs IH]; cbn [existsb]; [reflexivity|].
  now rewrite (safe_char_not_slash c Hc), IH.
Qed.

Lemma clean_title_safe (title : str) :
  Forall (fun c => is_safe_char c = true) (clean_title title).
Proof.
  unfold clean_title. apply strip_by_Forall, sub_underscore_runs_Forall.
  apply Forall_forall. intros c Hc. apply in_map_iff in Hc as (x & <- & _).
  destruct (is_safe_char x) eqn:Ex; [exact Ex|reflexivity].
Qed.

Lemma utf8_encode_ascii (s : str) :
  Forall (fun c => c < 128) s -> utf8_encode s = Some s.
Proof.
  induction 1 as [|c s Hc Hs IH]; simpl; [reflexivity|].
  unfold utf8_char. replace (c <? 0x80) with true
    by (symmetry; apply N.ltb_lt; exact Hc).
  now rewrite IH.
Qed.

Lemma hexdigit_is_hex (n : N) : n < 16 -> is_hex_char (MD5.hexdigit n) = true.
Proof.
  intros Hn. unfold MD5.hexdigit, is_hex_char, ascii_digit, in_range.
  destruct (n <? 10) eqn:E.
  - apply N.ltb_lt in E. apply orb_true_intro. left.
    apply andb_true_intro. split; apply N.leb_le; lia.
  - apply N.ltb_ge in E. apply orb_true_intro. right.
    apply andb_true_intro. split; apply N.leb_le; lia.
Qed.

Lemma le_bytes_length (n : nat) (x : N) : length (MD5.le_bytes n x) = n.
Proof. revert x. induction n; intros x; simpl; [reflexivity|now rewrite IHn]. Qed.

Lemma digest_length (data : bytes) : length (MD5.digest data) = 16%nat.
Proof.
  unfold MD5.digest.
  destruct (fold_left MD5.compress _ MD5.init) as [[[a b] c] d].
  now rewrite !length_app, !le_bytes_length.
Qed.

(** [hexdigest()] is 32 characters, each a lower-case hexadecimal digit. *)
Lemma hexdigest_shape (data : bytes) :
  length (MD5.hexdigest data) = 32%nat /\
  Forall (fun c => is_hex_char c = true) (MD5.hexdigest data).
Proof.
  unfold MD5.hexdigest. generalize (digest_length data).
  generalize (MD5.digest data) as d. intros d Hd. split.
  - assert (G : forall l : bytes,
      length (flat_map (fun b => [MD5.hexdigit ((b / 16) mod 16);
                                  MD5.hexdigit (b mod 16)]) l)
      = (2 * length l)%nat).
    { induction l as [|x l IH]; simpl; [reflexivity|]. rewrite IH. lia. }
    rewrite G, Hd. reflexivity.
  - clear Hd. induction d as [|x d IH]; simpl; [constructor|].
    constructor; [|constructor; [|exact IH]];
      apply hexdigit_is_hex; apply N.mod_lt; discriminate.
Qed.

Lemma string_of_uint_digits (d : Decimal.uint) :
  Forall (fun c => ascii_digit c = true) (lit (NilEmpty.string_of_uint d)).
Proof.
  induction d; simpl; constructor; try assumption; reflexivity.
Qed.

Lemma zero_pad_digits (w : nat) (s : str) :
  Forall (fun c => ascii_digit c = true) s ->
  Forall (fun c => ascii_digit c = true) (zero_pad w s).
Proof.
  intros Hs. unfold zero_pad. apply Forall_app. split; [|exact Hs].
  induction (w - length s)%nat; simpl; constructor; auto.
Qed.

Lemma digit_safe (c : char) : ascii_digit c = true -> is_safe_char c = true.
Proof.
  unfold is_safe_char. intros ->. now rewrite orb_true_r.
Qed.

(** The time stamp is made of digits and one underscore. *)
Lemma strftime_stamp_safe (dt : datetime) :
  Forall (fun c => is_safe_char c = true) (strftime_stamp dt).
Proof.
  assert (D : forall w n, Forall (fun c => is_safe_char c = true)
                                 (zero_pad w (decimal n))).
  { intros w n. eapply Forall_impl; [apply digit_safe|].
    apply zero_pad_digits, string_of_uint_digits. }
  unfold strftime_stamp.
  repeat first [ apply D | apply Forall_app; split ].
  constructor; [reflexivity|constructor].
Qed.

(* ================================================================== *)
(** * [short_safe_folder] *)
(* ================================================================== *)

Lemma is_empty_false_app {A} (a : list A) (x : A) (b : list A) :
  is_empty (a ++ x :: b) = false.
Proof. destruct a; reflexivity. Qed.

Lemma Forall_firstn {A} (P : A -> Prop) (n : nat) (l : list A) :
  Forall P l -> Forall P (firstn n l).
Proof.
  intros Hl. revert n. induction Hl as [|x l Hx Hl IH]; intros [|n]; simpl;
    constructor; auto.
Qed.

(** The folder name of a title whose cleaned form exceeds [max_len = 60]:
    the first 51 characters, an underscore, the first 8 characters of the
    MD5 hex digest. *)
Lemma short_safe_folder_long (now : datetime) (title base_dir : str) :
  (60 < len (clean_title title))%Z ->
  short_safe_folder now title base_dir 60
  = Ok (path_join base_dir
          (firstn 51 (clean_title title) ++ underscore
             :: firstn 8 (MD5.hexdigest (clean_title title)))).
Proof.
  intros Hlen. destruct title as [|c title]; [discriminate Hlen|].
  unfold short_safe_folder. cbn [is_empty].
  set (clean := clean_title (c :: title)) in *.
  replace (len clean <=? 60)%Z with false by (symmetry; apply Z.leb_gt; lia).
  rewrite utf8_encode_ascii.
  2:{ eapply Forall_impl; [apply safe_char_ascii|apply clean_title_safe]. }
  unfold slice_to. cbn [Z.ltb Z.sub Z.compare Z.opp Z.add Z.pos_sub
                        Pos.pred_double Pos.compare Pos.compare_cont].
  change (Z.to_nat 51) with 51%nat. change (Z.to_nat 8) with 8%nat.
  cbn [app]. now rewrite is_empty_false_app.
Qed.

(** C6: [short_safe_folder("My Article!!")] is the base directory joined
    with [My_Article], a basename made only of characters of
    [[A-Za-z0-9_]], without a doubled underscore and without an underscore
    at either end. *)
Theorem C6_my_article_folder (now : datetime) :
  exists p,
    short_safe_folder now (lit "My Article!!") OUTPUT_BASE 60 = Ok p /\
    basename p = lit "My_Article" /\
    forallb is_safe_char (basename p) = true /\
    contains [underscore; underscore] (basename p) = false /\
    startswith [underscore] (basename p) = false /\
    startswith [underscore] (rev (basename p)) = false.
Proof.
  exists (lit "outputs_final/My_Article").
  split; [|repeat split]; vm_compute; reflexivity.
Qed.

(** C7: when the cleaned form of the title is longer than 60 characters,
    the folder's basename is at most 60 characters long and ends in an
    underscore followed by 8 hexadecimal digits (the head of the MD5 digest
    of the cleaned form), after the first 51 characters of the cleaned
    form. *)
Theorem C7_long_title_hash_suffix (now : datetime) (title base_dir : str) :
  (60 < len (clean_title title))%Z ->
  exists p hex,
    short_safe_folder now title base_dir 60 = Ok p /\
    (len (basename p) <= 60)%Z /\
    basename p = firstn 51 (clean_title title) ++ underscore :: hex /\
    length hex = 8%nat /\
    forallb is_hex_char hex = true.
Proof.
  intros Hlen.
  set (clean := clean_title title) in *.
  set (hex := firstn 8 (MD5.hexdigest clean)).
  destruct (hexdigest_shape clean) as [Hl Hh].
  assert (Hhex : Forall (fun c => is_hex_char c = true) hex)
    by (apply Forall_firstn; exact Hh).
  assert (Hn : length hex = 8%nat).
  { unfold hex. rewrite length_firstn, Hl. reflexivity. }
  assert (Hb : basename (path_join base_dir (firstn 51 clean ++ underscore :: hex))
               = firstn 51 clean ++ underscore :: hex).
  { apply basename_path_join, no_slash_of_safe, Forall_app. split.
    - apply Forall_firstn, clean_title_safe.
    - constructor; [reflexivity|].
      eapply Forall_impl; [apply hex_char_safe|exact Hhex]. }
  exists (path_join base_dir (firstn 51 clean ++ underscore :: hex)), hex.
  split; [apply short_safe_folder_long; exact Hlen|].
  rewrite Hb. repeat split.
  - unfold len in *. rewrite length_app, length_firstn. simpl length.
    rewrite Hn. lia.
  - exact Hn.
  - apply forallb_forall. apply Forall_forall. exact Hhex.
Qed.

(** The hypothesis of C7 at a title of 70 letters, whose folder ends in
    [_689158e3]. *)
Lemma C7_long_title_hash_suffix_witness :
  exists p hex,
    short_safe_folder
      {| year := 2024; month := 3; day := 7;
         hour := 9; minute := 5; second := 0 |}
      (repeat 65 70) OUTPUT_BASE 60 = Ok p /\
    (len (basename p) <= 60)%Z /\
    basename p = firstn 51 (clean_title (repeat 65 70)) ++ underscore :: hex /\
    length hex = 8%nat /\
    forallb is_hex_char hex = true.
Proof.
  apply C7_long_title_hash_suffix. vm_compute. reflexivity.
Defined.

Lemma sub_underscore_runs_all (s : str) (b : bool) :
  forallb (N.eqb underscore) s = true ->
  forallb (N.eqb underscore) (sub_underscore_runs b s) = true.
Proof.
  revert b. induction s as [|c s IH]; intros b Hs; [reflexivity|].
  cbn [forallb] in Hs. apply andb_prop in Hs as [Hc Hs].
  cbn [sub_underscore_runs]. rewrite (N.eqb_sym c underscore), Hc.
  destruct b; [now apply IH|]. cbn [forallb]. rewrite Hc. now apply IH.
Qed.

(** A title without any character of [[A-Za-z0-9_]] cleans to the empty
    string. *)
Lemma clean_title_unsafe (title : str) :
  Forall (fun c => is_safe_char c = false) title -> clean_title title = [].
Proof.
  intros Ht. unfold clean_title, strip_by, rstrip_by.
  match goal with |- context [lstrip_by ?f (sub_underscore_runs ?b ?s)] =>
    rewrite (lstrip_by_all f (sub_underscore_runs b s)); [reflexivity|]
  end.
  apply sub_underscore_runs_all.
  induction Ht as [|c t Hc Ht IH]; [reflexivity|].
  cbn [map forallb]. rewrite Hc, N.eqb_refl. exact IH.
Qed.

(** C10: a non-empty title with no character of [[A-Za-z0-9_]] gets the
    time-stamp fallback: the basename is [article_] followed by the stamp
    of the clock, not anything derived from the title. *)
Theorem C10_symbol_title_falls_back (now : datetime) (title base_dir : str) :
  title <> [] ->
  Forall (fun c => is_safe_char c = false) title ->
  exists p,
    short_safe_folder now title base_dir 60 = Ok p /\
    basename p = lit "article_" ++ strftime_stamp now /\
    startswith (lit "article_") (basename p) = true.
Proof.
  intros Hne Ht.
  exists (path_join base_dir (lit "article_" ++ strftime_stamp now)).
  assert (Hb : basename (path_join base_dir (lit "article_" ++ strftime_stamp now))
               = lit "article_" ++ strftime_stamp now).
  { apply basename_path_join, no_slash_of_safe, Forall_app. split.
    - apply Forall_forall. apply forallb_forall. reflexivity.
    - apply strftime_stamp_safe. }
  rewrite Hb. split; [|split; [reflexivity|apply startswith_app]].
  unfold short_safe_folder. destruct title as [|c title]; [now elim Hne|].
  cbn [is_empty]. rewrite (clean_title_unsafe Ht). reflexivity.
Qed.

(** The fallback reached from the title [?!]. *)
Lemma C10_symbol_title_falls_back_witness :
  exists p,
    short_safe_folder
      {| year := 2024; month := 3; day := 7;
         hour := 9; minute := 5; second := 0 |}
      (lit "?!") OUTPUT_BASE 60 = Ok p /\
    basename p = lit "article_20240307_090500" /\
    startswith (lit "article_") (basename p) = true.
Proof.
  apply (@C10_symbol_title_falls_back
           {| year := 2024; month := 3; day := 7;
              hour := 9; minute := 5; second := 0 |}
           (lit "?!") OUTPUT_BASE).
  - discriminate.
  - repeat constructor.
Defined.

(* ================================================================== *)
(** * [paraphrase_text] *)
(* ================================================================== *)

Section ParaphraseFacts.
Context {U : Unicode}.

Lemma last_opt_snoc (s : str) (c : char) : last_opt (s ++ [c]) = Some c.
Proof. unfold last_opt. now rewrite rev_app_distr. Qed.

Lemma nth_error_last (w rest : str) :
  w <> [] -> nth_error (w ++ rest) (length w - 1) = last_opt w.
Proof.
  intros Hw. destruct (rev w) as [|x r] eqn:Er.
  - apply (f_equal (@rev _)) in Er. rewrite rev_involutive in Er.
    now elim Hw.
  - unfold last_opt. rewrite Er.
    apply (f_equal (@rev _)) in Er. rewrite rev_involutive in Er.
    simpl in Er. subst w. rewrite length_app. simpl length.
    replace (length (rev r) + 1 - 1)%nat with (length (rev r)) by lia.
    rewrite <- app_assoc. rewrite nth_error_app2 by lia.
    now rewrite Nat.sub_diag.
Qed.

Lemma match_literal_sound (k s rest : str) :
  match_literal k s = Some rest ->
  exists w, s = w ++ rest /\
            Forall2 (fun p c => ignorecase_match p c = true) k w.
Proof.
  revert s. induction k as [|p k IH]; intros s Hm; simpl in Hm.
  - injection Hm as <-. exists []. split; [reflexivity|constructor].
  - destruct s as [|c s]; [discriminate|].
    destruct (ignorecase_match p c) eqn:Ec; [|discriminate].
    destruct (IH _ Hm) as (w & -> & Hw).
    exists (c :: w). split; [reflexivity|now constructor].
Qed.

Lemma match_literal_complete (k w post : str) :
  Forall2 (fun p c => ignorecase_match p c = true) k w ->
  match_literal k (w ++ post) = Some post.
Proof.
  induction 1 as [|p c k w Hc Hw IH]; simpl.
  - now destruct post.
  - now rewrite Hc.
Qed.

(** The matcher at a position agrees with the declarative notion. *)
Lemma word_match_at_occurrence (k pre s : str) :
  k <> [] ->
  word_match_at k (last_opt pre) s = true ->
  occurs_as_word k (pre ++ s).
Proof.
  intros Hk Hm. unfold word_match_at in Hm.
  apply andb_prop in Hm as [Hb Hm].
  destruct (match_literal k s) as [rest|] eqn:El; [|discriminate].
  destruct (match_literal_sound _ _ El) as (w & -> & Hw).
  assert (Hne : w <> []).
  { intros ->. inversion Hw. now subst. }
  exists pre, w, rest. repeat split; auto.
  - destruct w; [now elim Hne|exact Hb].
  - rewrite (Forall2_length Hw), nth_error_last in Hm by exact Hne.
    exact Hm.
Qed.

Lemma occurrence_word_match_at (k pre w post : str) :
  k <> [] ->
  Forall2 (fun p c => ignorecase_match p c = true) k w ->
  boundary (last_opt pre) (hd_error w) = true ->
  boundary (last_opt w) (hd_error post) = true ->
  word_match_at k (last_opt pre) (w ++ post) = true.
Proof.
  intros Hk Hw Hb1 Hb2.
  assert (Hne : w <> []).
  { intros ->. inversion Hw. now subst. }
  unfold word_match_at. rewrite (match_literal_complete post Hw).
  rewrite (Forall2_length Hw), nth_error_last by exact Hne.
  rewrite Hb2, andb_true_r. destruct w; [now elim Hne|exact Hb1].
Qed.

(** The search finds every occurrence. *)
Lemma occurs_as_word_found (k text : str) :
  k <> [] -> occurs_as_word k text -> word_search k None text = true.
Proof.
  intros Hk (pre & w & post & -> & Hw & Hb1 & Hb2).
  pose proof (occurrence_word_match_at pre post Hk Hw Hb1 Hb2) as Hm.
  assert (Hne : w <> []).
  { intros ->. inversion Hw. now subst. }
  change None with (last_opt []).
  replace pre with ([] ++ pre) in Hm by reflexivity.
  clear Hb1. revert Hm. generalize (@nil char) as seen.
  induction pre as [|c pre IH]; intros seen Hm.
  - rewrite app_nil_r in Hm. destruct w as [|x w]; [now elim Hne|].
    simpl app. cbn [word_search]. simpl app in Hm. now rewrite Hm.
  - simpl app. cbn [word_search]. apply orb_true_intro. right.
    rewrite <- (last_opt_snoc seen c). apply IH.
    now rewrite <- app_assoc.
Qed.

(** A substitution without a match returns its input. *)
Lemma re_sub_word_from_id (k v : str) :
  k <> [] ->
  forall s pre,
    ~ occurs_as_word k (pre ++ s) ->
    re_sub_word_from k v (last_opt pre) 0 s = s.
Proof.
  intros Hk. induction s as [|c s IH]; intros pre Hno; [reflexivity|].
  cbn [re_sub_word_from].
  destruct (word_match_at k (last_opt pre) (c :: s)) eqn:Em.
  - elim Hno. now apply word_match_at_occurrence.
  - f_equal. rewrite <- (last_opt_snoc pre c). apply IH.
    now rewrite <- app_assoc.
Qed.

Lemma re_sub_word_id (k v text : str) :
  k <> [] -> ~ occurs_as_word k text -> re_sub_word k v text = text.
Proof.
  intros Hk Hno. unfold re_sub_word.
  change None with (last_opt []). now apply re_sub_word_from_id.
Qed.

(** C8: with [lang = "en"], a text without Devanagari code points that
    holds none of the five English keys as a case-insensitive whole word
    is returned unchanged. *)
Theorem C8_paraphrase_identity_without_keys (text : str) :
  existsb is_devanagari text = false ->
  (forall k v, In (k, v) syn_en -> ~ occurs_as_word k text) ->
  paraphrase_text text (lit "en") = text.
Proof.
  intros Hlatin Hno. unfold paraphrase_text.
  destruct (is_empty text) eqn:Ee; [now destruct text|].
  unfold devanagari_branch. rewrite Hlatin.
  change (startswith (lit "hi") (lit "en")) with false. cbn [orb].
  assert (Hid : forall k v, In (k, v) syn_en -> re_sub_word k v text = text).
  { intros k v Hin. apply re_sub_word_id; [|now apply (Hno k v)].
    unfold syn_en in Hin. simpl in Hin.
    repeat (destruct Hin as [Hin|Hin];
            [injection Hin as <- <-; discriminate|]).
    contradiction. }
  unfold syn_en in *. cbn [fold_left fst snd].
  rewrite !Hid; simpl; auto 10.
Qed.

(** C9: in the Devanagari branch the rules rewrite one another's output:
    on the second key of the table the first applicable rule yields the
    mapped synonym, the third rule then rewrites a part of that synonym,
    and the text returned is not the synonym. *)
Theorem C9_devanagari_rules_chain :
  exists k v k' v',
    nth_error syn_hi 1 = Some (k, v) /\
    nth_error syn_hi 2 = Some (k', v') /\
    str_replace k v k = v /\
    paraphrase_text k (lit "hi") = str_replace k' v' (str_replace k v k) /\
    paraphrase_text k (lit "hi") <> v.
Proof.
  do 4 eexists. split; [reflexivity|]. split; [reflexivity|].
  split; [vm_compute; reflexivity|].
  split; [vm_compute; reflexivity|].
  intros Heq. vm_compute in Heq. discriminate Heq.
Qed.

End ParaphraseFacts.

(** The hypotheses of C8 at an English sentence and the ASCII database. *)
Lemma C8_paraphrase_identity_without_keys_witness :
  @paraphrase_text ascii_only (lit "The cat sat on the mat, unused.")
    (lit "en")
  = lit "The cat sat on the mat, unused.".
Proof.
  apply (@C8_paraphrase_identity_without_keys ascii_only).
  - reflexivity.
  - intros k v Hin Hocc.
    assert (Hk : k <> []).
    { simpl in Hin.
      repeat (destruct Hin as [Hin|Hin];
              [injection Hin as <- <-; discriminate|]).
      contradiction. }
    pose proof (occurs_as_word_found Hk Hocc) as Hs.
    simpl in Hin.
    repeat (destruct Hin as [Hin|Hin];
            [injection Hin as <- <-; vm_compute in Hs; discriminate Hs|]).
    contradiction.
Defined.

(* ================================================================== *)
(** * [sorted]: permutation, order, stability *)
(* ================================================================== *)

Section SortFacts.
Variable A : Type.
Variable key : A -> Z.

Lemma insert_by_perm (x : A) (l : list A) :
  Permutation (x :: l) (insert_by key x l).
Proof.
  induction l as [|y l IH]; simpl; [reflexivity|].
  destruct (key x <=? key y)%Z; [reflexivity|].
  rewrite perm_swap. now constructor.
Qed.

Lemma stable_sort_perm (l : list A) : Permutation l (stable_sort key l).
Proof.
  induction l as [|x l IH]; simpl; [reflexivity|].
  rewrite <- insert_by_perm. now constructor.
Qed.

Lemma sorted_perm (reverse : bool) (l : list A) :
  Permutation l (sorted key reverse l).
Proof.
  unfold sorted. destruct reverse.
  - rewrite <- Permutation_rev, <- stable_sort_perm. apply Permutation_rev.
  - apply stable_sort_perm.
Qed.

Lemma insert_by_ordered (x : A) (l : list A) :
  StronglySorted (fun a b => (key a <= key b)%Z) l ->
  StronglySorted (fun a b => (key a <= key b)%Z) (insert_by key x l).
Proof.
  induction 1 as [|y l Hl IH Hy]; simpl.
  - repeat constructor.
  - destruct (key x <=? key y)%Z eqn:E.
    + apply Z.leb_le in E. constructor; [now constructor|].
      constructor; [exact E|].
      eapply Forall_impl; [|exact Hy]. simpl. intros; lia.
    + apply Z.leb_gt in E. constructor; [exact IH|].
      rewrite <- insert_by_perm. constructor; [lia|exact Hy].
Qed.

(** The result is ordered by key. *)
Lemma stable_sort_ordered (l : list A) :
  StronglySorted (fun a b => (key a <= key b)%Z) (stable_sort key l).
Proof.
  induction l as [|x l IH]; simpl; [constructor|].
  now apply insert_by_ordered.
Qed.

End SortFacts.

Lemma StronglySorted_snoc {A} (R : A -> A -> Prop) (l : list A) (x : A) :
  StronglySorted R l -> Forall (fun y => R y x) l ->
  StronglySorted R (l ++ [x]).
Proof.
  induction 1 as [|y l Hl IH Hy]; intros Hx; simpl.
  - repeat constructor.
  - inversion Hx as [|? ? Hyx Hlx]; subst. constructor; [now apply IH|].
    apply Forall_app. split; [exact Hy|now constructor].
Qed.

Lemma StronglySorted_rev {A} (R : A -> A -> Prop) (l : list A) :
  StronglySorted R l -> StronglySorted (fun a b => R b a) (rev l).
Proof.
  induction 1 as [|x l Hl IH Hx]; simpl; [constructor|].
  apply StronglySorted_snoc; [exact IH|].
  apply Forall_forall. intros y Hy. apply in_rev in Hy.
  revert y Hy. now apply Forall_forall.
Qed.

Lemma StronglySorted_app_inv {A} (R : A -> A -> Prop) (a b : list A) :
  StronglySorted R (a ++ b) ->
  forall x y, In x a -> In y b -> R x y.
Proof.
  induction a as [|z a IH]; simpl; intros Hs x y Hx Hy; [contradiction|].
  inversion Hs as [|? ? Hs' Hz]; subst. destruct Hx as [<-|Hx].
  - rewrite Forall_forall in Hz. apply Hz, in_or_app. now right.
  - now apply IH.
Qed.

Lemma StronglySorted_seq (a n : nat) : StronglySorted lt (seq a n).
Proof.
  revert a. induction n as [|n IH]; intros a; simpl; constructor; [apply IH|].
  apply Forall_forall. intros x Hx. apply in_seq in Hx. lia.
Qed.

Section Stability.
Variable key : nat -> Z.

Lemma insert_by_stable (x : nat) (l : list nat) :
  StronglySorted (fun a b => ranks_before key b a) l ->
  Forall (fun y => (y < x)%nat) l ->
  StronglySorted (fun a b => ranks_before key b a) (insert_by key x l).
Proof.
  induction 1 as [|y l Hl IH Hy]; intros Hx; simpl.
  - repeat constructor.
  - inversion Hx as [|? ? Hyx Hlx]; subst.
    destruct (key x <=? key y)%Z eqn:E.
    + apply Z.leb_le in E. constructor; [now constructor|].
      constructor; [unfold ranks_before; lia|].
      rewrite Forall_forall in Hy, Hlx |- *. intros z Hz.
      specialize (Hy z Hz). specialize (Hlx z Hz).
      unfold ranks_before in *. lia.
    + apply Z.leb_gt in E. constructor; [now apply IH|].
      rewrite <- insert_by_perm.
      constructor; [unfold ranks_before; lia|exact Hy].
Qed.

Lemma stable_sort_stable (l : list nat) :
  StronglySorted (fun a b => (b < a)%nat) l ->
  StronglySorted (fun a b => ranks_before key b a) (stable_sort key l).
Proof.
  induction 1 as [|x l Hl IH Hx]; simpl; [constructor|].
  apply insert_by_stable; [exact IH|].
  rewrite <- stable_sort_perm. exact Hx.
Qed.

(** Sorting the positions [0..n-1] by key with [reverse=True]. *)
Lemma sorted_reverse_ranks (n : nat) :
  StronglySorted (ranks_before key) (sorted key true (seq 0 n)).
Proof.
  unfold sorted.
  apply (StronglySorted_rev (R := fun a b => ranks_before key b a)).
  apply stable_sort_stable.
  apply (StronglySorted_rev (R := lt)), StronglySorted_seq.
Qed.

End Stability.

(** An ascending sort of distinct positions is strictly increasing. *)
Lemma sorted_ascending_strict (l : list nat) :
  NoDup l -> StronglySorted lt (sorted Z.of_nat false l).
Proof.
  intros Hnd. unfold sorted.
  assert (Hnd' : NoDup (stable_sort Z.of_nat l)).
  { eapply Permutation_NoDup; [apply stable_sort_perm|exact Hnd]. }
  pose proof (stable_sort_ordered Z.of_nat l) as Hs.
  induction Hs as [|x s Hs IH Hx]; [constructor|].
  inversion Hnd' as [|? ? Hnx Hnd'']; subst.
  constructor; [now apply IH|].
  rewrite Forall_forall in Hx |- *. intros y Hy. specialize (Hx y Hy).
  assert (x <> y) by (intros ->; contradiction). lia.
Qed.

(* ================================================================== *)
(** * [extractive_summary] *)
(* ================================================================== *)

Lemma scores_keys {A} (f : nat * A -> nat * Z) (l : list A) (a : nat) :
  (forall p, fst (f p) = fst p) ->
  map fst (map f (combine (seq a (length l)) l)) = seq a (length l).
Proof.
  intros Hf. revert a. induction l as [|x l IH]; intros a; simpl;
    [reflexivity|].
  now rewrite Hf, IH.
Qed.

Lemma scores_get {A} (sc : A -> Z) (d : A) (l : list A) (a i : nat) :
  (a <= i < a + length l)%nat ->
  dict_get (map (fun p => (fst p, sc (snd p))) (combine (seq a (length l)) l)) i
  = sc (nth (i - a) l d).
Proof.
  unfold dict_get. revert a.
  induction l as [|x l IH]; intros a Hi; simpl in *; [lia|].
  destruct (Nat.eqb a i) eqn:E.
  - apply Nat.eqb_eq in E. subst i. now rewrite Nat.sub_diag.
  - apply Nat.eqb_neq in E. rewrite IH by lia.
    replace (i - a)%nat with (S (i - S a)) by lia. reflexivity.
Qed.

Lemma firstn_skipn_split {A} (n : nat) (l : list A) (x : A) :
  In x l -> ~ In x (firstn n l) -> In x (skipn n l).
Proof.
  intros Hx Hn. rewrite <- (firstn_skipn n l) in Hx.
  apply in_app_or in Hx as [Hx|Hx]; [contradiction|exact Hx].
Qed.

Lemma NoDup_firstn {A} (n : nat) (l : list A) : NoDup l -> NoDup (firstn n l).
Proof.
  intros Hl. rewrite <- (firstn_skipn n l) in Hl.
  now apply NoDup_app_remove_r in Hl.
Qed.

Section SummaryFacts.
Context {U : Unicode}.

(** C1: when the text has more sentences than [max_sentences] (a count,
    so not negative), the summary is the join of exactly [max_sentences]
    sentences of the sentence list, taken at strictly increasing positions
    (original order), and every selected position outranks every position
    left out: its score is larger, or equal with a lower index. *)
Theorem C1_summary_selects_top (text lang : str) (max_sentences : Z) :
  (0 <= max_sentences < len (split_sentences text lang))%Z ->
  exists idx : list nat,
    extractive_summary text max_sentences lang
    = join (lit " ") (map (fun i => nth i (split_sentences text lang) []) idx) /\
    len idx = max_sentences /\
    StronglySorted lt idx /\
    Forall (fun i => (i < length (split_sentences text lang))%nat) idx /\
    forall i j,
      In i idx -> (j < length (split_sentences text lang))%nat -> ~ In j idx ->
      ranks_before
        (fun n => sentence_score text (nth n (split_sentences text lang) []))
        i j.
Proof.
  intros [Hmax Hlen]. unfold extractive_summary.
  set (sents := split_sentences text lang) in *.
  set (sc := sentence_score text).
  set (scores := map (fun p => (fst p, sc (snd p))) (enumerate sents)).
  assert (Hkeys : map fst scores = seq 0 (length sents)).
  { unfold scores, enumerate. now apply scores_keys. }
  assert (Hget : forall i, (i < length sents)%nat ->
                           dict_get scores i = sc (nth i sents [])).
  { intros i Hi. unfold scores, enumerate.
    rewrite (scores_get sc [] sents (a := 0) (i := i)) by lia.
    now rewrite Nat.sub_0_r. }
  rewrite Hkeys.
  set (order := sorted (dict_get scores) true (seq 0 (length sents))).
  set (m := Z.to_nat max_sentences).
  assert (Hperm : Permutation (seq 0 (length sents)) order)
    by apply sorted_perm.
  assert (Horder : StronglySorted (ranks_before (dict_get scores)) order)
    by apply sorted_reverse_ranks.
  assert (Hslice : slice_to max_sentences order = firstn m order).
  { unfold slice_to. now replace (max_sentences <? 0)%Z with false
      by (symmetry; apply Z.ltb_ge; lia). }
  rewrite Hslice.
  set (top := firstn m order).
  set (idx := sorted Z.of_nat false top).
  assert (Hnd : NoDup top).
  { apply NoDup_firstn. eapply Permutation_NoDup; [exact Hperm|].
    apply seq_NoDup. }
  assert (Hidx : Permutation top idx) by apply sorted_perm.
  assert (Hrange : forall i, In i order -> (i < length sents)%nat).
  { intros i Hi. apply (Permutation_in _ (Permutation_sym Hperm)) in Hi.
    apply in_seq in Hi. lia. }
  assert (Htop : forall i, In i idx -> In i top).
  { intros i Hi. now apply (Permutation_in _ (Permutation_sym Hidx)). }
  assert (Hsub : forall i, In i top -> In i order).
  { intros i Hi. rewrite <- (firstn_skipn m order).
    apply in_or_app. now left. }
  exists idx. repeat split.
  - destruct sents as [|s0 sents'] eqn:Es.
    + unfold len in Hlen. simpl in Hlen. lia.
    + cbn [is_empty]. rewrite <- Es in *.
      now replace (len sents <=? max_sentences)%Z with false
        by (symmetry; apply Z.leb_gt; lia).
  - unfold len. rewrite <- (Permutation_length Hidx). unfold top.
    rewrite length_firstn, <- (Permutation_length Hperm), length_seq.
    unfold len in Hlen. unfold m. lia.
  - now apply sorted_ascending_strict.
  - apply Forall_forall. intros i Hi. auto.
  - intros i j Hi Hj Hnj.
    assert (Hjo : In j (skipn m order)).
    { apply firstn_skipn_split.
      - apply (Permutation_in _ Hperm), in_seq. lia.
      - intros Hjt. apply Hnj.
        now apply (Permutation_in _ Hidx). }
    rewrite <- (firstn_skipn m order) in Horder.
    pose proof (StronglySorted_app_inv _ _ Horder i j (Htop i Hi) Hjo) as Hr.
    unfold ranks_before in *.
    rewrite (Hget i), (Hget j) in Hr by auto. exact Hr.
Qed.

(** C2, as the code has it: a text with at most [max_sentences] sentences
    comes back as all its sentences, in order, joined by single spaces. *)
Theorem C2_short_text_joined_by_spaces (text lang : str) (max_sentences : Z) :
  (len (split_sentences text lang) <= max_sentences)%Z ->
  extractive_summary text max_sentences lang
  = join (lit " ") (split_sentences text lang).
Proof.
  intros Hlen. unfold extractive_summary.
  destruct (split_sentences text lang) as [|s0 sents]; [reflexivity|].
  cbn [is_empty].
  now replace (len (s0 :: sents) <=? max_sentences)%Z with true
    by (symmetry; apply Z.leb_le; exact Hlen).
Qed.

End SummaryFacts.

(** The hypothesis of C1 at a text of four sentences, three of them with
    the same score, and [max_sentences = 2]. *)
Lemma C1_summary_selects_top_witness :
  exists idx : list nat,
    @extractive_summary ascii_only (lit "One two. One two. Six. One two.") 2
      (lit "en")
    = join (lit " ")
        (map (fun i =>
                nth i (split_sentences (lit "One two. One two. Six. One two.")
                         (lit "en")) [])
             idx) /\
    len idx = 2%Z /\
    StronglySorted lt idx /\
    Forall (fun i =>
              (i < length (split_sentences
                             (lit "One two. One two. Six. One two.")
                             (lit "en")))%nat) idx /\
    forall i j,
      In i idx ->
      (j < length (split_sentences (lit "One two. One two. Six. One two.")
                     (lit "en")))%nat ->
      ~ In j idx ->
      ranks_before
        (fun n =>
           @sentence_score ascii_only (lit "One two. One two. Six. One two.")
             (nth n (split_sentences (lit "One two. One two. Six. One two.")
                       (lit "en")) []))
        i j.
Proof.
  apply (@C1_summary_selects_top ascii_only
           (lit "One two. One two. Six. One two.") (lit "en") 2).
  split; [lia|]. vm_compute. reflexivity.
Defined.

(** On that text the two sentences kept are the first two: the fourth has
    the same score and a higher index. *)
Example summary_tie_keeps_lower_index :
  @extractive_summary ascii_only (lit "One two. One two. Six. One two.") 2
    (lit "en")
  = lit "One two. One two.".
Proof. vm_compute. reflexivity. Qed.

(** The hypothesis of C2 at a text of two sentences. *)
Lemma C2_short_text_joined_by_spaces_witness :
  @extractive_summary ascii_only (lit "A.  B.") 50 (lit "en")
  = join (lit " ") (split_sentences (lit "A.  B.") (lit "en")).
Proof.
  apply (@C2_short_text_joined_by_spaces ascii_only).
  vm_compute. discriminate.
Defined.

(** Where the wording of C2 does not hold: two sentences on two lines are
    within the maximum, and come back on one line, a space where the text
    had a newline, so the summary is not the text with its own joining. *)
Lemma C2_original_joining_lost :
  (len (split_sentences (lit "A." ++ [newline] ++ lit "B.") (lit "en"))
   <= 50)%Z /\
  @extractive_summary ascii_only (lit "A." ++ [newline] ++ lit "B.") 50
    (lit "en")
  = lit "A. B." /\
  @extractive_summary ascii_only (lit "A." ++ [newline] ++ lit "B.") 50
    (lit "en")
  <> strip (lit "A." ++ [newline] ++ lit "B.").
Proof.
  split; [vm_compute; discriminate|].
  split; [vm_compute; reflexivity|].
  intros E. vm_compute in E. discriminate E.
Qed.


(* ================================================================== *)
(** * The image harvester *)
(* ================================================================== *)

Section HarvestFacts.
Context {U : Unicode}.
Variable W : Type.
Variable H : Host W.
Variables (folder : str) (ssl : bool) (cap : Z).

(** A pass through the loop body always returns, with the state unchanged
    or extended by one saved path. *)
Lemma harvest_one_returns (img : img_tag) (saved : list str) (c : Z) (w : W) :
  exists st' w',
    harvest_one H folder ssl img (saved, c) w = (Ok st', w') /\
    (st' = (saved, c) \/ exists p, st' = (saved ++ [p], (c + 1)%Z)).
Proof.
  unfold harvest_one. destruct (image_source img) as [src|].
  2:{ exists (saved, c), w. split; [reflexivity|now left]. }
  unfold try_except, bind.
  destruct (fetch_image H folder src ssl c w) as [[outpath|e] w1].
  2:{ exists (saved, c), w1. split; [reflexivity|now left]. }
  unfold verify_or_remove, try_except, bind.
  destruct (image_verify H outpath w1) as [[[]|e] w2]; simpl.
  - exists (saved ++ [outpath], (c + 1)%Z), w2.
    split; [reflexivity|right; now exists outpath].
  - destruct (os_remove H outpath w2) as [[[]|e'] w3]; simpl;
      exists (saved, c), w3; (split; [reflexivity|now left]).
Qed.

(** The loop always returns; it appends to the list as many paths as it
    adds to the counter, and stops the counter at the cap. *)
Lemma harvest_loop_returns (imgs : list img_tag) :
  forall saved c w,
  exists saved' c' w',
    harvest_loop H folder ssl cap imgs (saved, c) w = (Ok (saved', c'), w') /\
    (len saved' - len saved = c' - c)%Z /\
    (c <= c' <= Z.max c cap)%Z.
Proof.
  induction imgs as [|img rest IH]; intros saved c w.
  - exists saved, c, w. simpl. unfold ret. repeat split; lia.
  - cbn [harvest_loop snd]. destruct (c >=? cap)%Z eqn:Ecap.
    + exists saved, c, w. unfold ret. repeat split; lia.
    + rewrite Z.geb_leb in Ecap. apply Z.leb_gt in Ecap.
      destruct (harvest_one_returns img saved c w) as (st' & w1 & E1 & Hst).
      unfold bind. rewrite E1. destruct Hst as [->|[p ->]].
      * destruct (IH saved c w1) as (s' & c' & w' & E & Hl & Hc).
        exists s', c', w'. repeat split; auto; lia.
      * destruct (IH (saved ++ [p]) (c + 1)%Z w1)
          as (s' & c' & w' & E & Hl & Hc).
        exists s', c', w'. unfold len in *. rewrite length_app in Hl.
        simpl in Hl. repeat split; auto; lia.
Qed.

(** C5, as the code has it.  Whatever the images do, the harvester returns
    a list, of at most [max_images] paths.  An image whose download raises,
    or whose written file fails to decode, leaves the saved list and the
    counter as they were, and the loop goes on with the remaining tags.
    After a failed decode the removal of the file is attempted: the file
    is gone when that removal returns; when the removal raises, the
    exception is dropped and nothing more is done about the file. *)
Theorem C5_bad_image_isolated :
  remove_law H ->
  (forall html w,
     exists paths w',
       download_images_from_html H html folder ssl cap w = (Ok paths, w') /\
       (len paths <= Z.max 0 cap)%Z) /\
  (forall img rest saved c w src outpath w1 e w2 r w3,
     (c < cap)%Z ->
     image_source img = Some src ->
     fetch_image H folder src ssl c w = (Ok outpath, w1) ->
     image_verify H outpath w1 = (Raise e, w2) ->
     os_remove H outpath w2 = (r, w3) ->
     harvest_loop H folder ssl cap (img :: rest) (saved, c) w
     = harvest_loop H folder ssl cap rest (saved, c) w3 /\
     (r = Ok tt -> file_exists H w3 outpath = false)) /\
  (forall img rest saved c w src e w1,
     (c < cap)%Z ->
     image_source img = Some src ->
     fetch_image H folder src ssl c w = (Raise e, w1) ->
     harvest_loop H folder ssl cap (img :: rest) (saved, c) w
     = harvest_loop H folder ssl cap rest (saved, c) w1).
Proof.
  intros Hlaw. split; [|split].
  - intros html w. unfold download_images_from_html, bind.
    destruct (harvest_loop_returns (find_all_img H html) [] 0%Z w)
      as (saved & c & w' & E & Hl & Hc).
    rewrite E. exists saved, w'. split; [reflexivity|].
    unfold len in *. simpl in Hl. lia.
  - intros img rest saved c w src outpath w1 e w2 r w3
           Hc Hsrc Hfetch Hverify Hremove.
    split.
    + cbn [harvest_loop snd].
      replace (c >=? cap)%Z with false
        by (symmetry; rewrite Z.geb_leb; apply Z.leb_gt; exact Hc).
      unfold bind at 1. unfold harvest_one. rewrite Hsrc.
      unfold try_except at 1. unfold bind at 1. rewrite Hfetch.
      unfold verify_or_remove, try_except, bind. rewrite Hverify, Hremove.
      now destruct r as [[]|e'].
    + intros ->. exact (Hlaw _ _ _ Hremove).
  - intros img rest saved c w src e w1 Hc Hsrc Hfetch.
    cbn [harvest_loop snd].
    replace (c >=? cap)%Z with false
      by (symmetry; rewrite Z.geb_leb; apply Z.leb_gt; exact Hc).
    unfold bind at 1. unfold harvest_one. rewrite Hsrc.
    unfold try_except at 1. unfold bind at 1. now rewrite Hfetch.
Qed.

End HarvestFacts.

(** The scripted host keeps the promise about removals. *)
Lemma scripted_remove_law (s : Scripted.script) :
  remove_law (Scripted.host s).
Proof.
  intros p w w'. simpl. destruct (Scripted.remove_denied s); [discriminate|].
  destruct (Scripted.on_disk w p); [|discriminate].
  intros E. injection E as <-. unfold Scripted.on_disk.
  induction w as [|f w IH]; simpl; [reflexivity|].
  destruct (str_eqb (fst f) p) eqn:Ef; simpl; [exact IH|].
  now rewrite Ef, IH.
Qed.

(** C5 on the scripted host: a page whose first image does not decode and
    whose second does.  The harvester returns; the bad image is passed
    over, its file removed; the loop goes on with the good one. *)
Lemma C5_bad_image_isolated_witness :
  (exists paths w',
     @download_images_from_html ascii_only _
       (Scripted.host
          (Scripted.gallery [Scripted.bad_png; Scripted.good_png] false None))
       [] (lit "out") true 50 [] = (Ok paths, w') /\
     (len paths <= Z.max 0 50)%Z) /\
  @harvest_loop ascii_only _
    (Scripted.host
       (Scripted.gallery [Scripted.bad_png; Scripted.good_png] false None))
    (lit "out") true 50 [Scripted.bad_png; Scripted.good_png] ([], 0%Z) []
  = @harvest_loop ascii_only _
      (Scripted.host
         (Scripted.gallery [Scripted.bad_png; Scripted.good_png] false None))
      (lit "out") true 50 [Scripted.good_png] ([], 0%Z) [] /\
  Scripted.on_disk [] (lit "out/img_1.png") = false.
Proof.
  destruct (@C5_bad_image_isolated ascii_only _
              (Scripted.host
                 (Scripted.gallery [Scripted.bad_png; Scripted.good_png]
                    false None))
              (lit "out") true 50 (scripted_remove_law _))
    as (Hreturns & Hdecode & _).
  split; [apply Hreturns|].
  destruct (Hdecode Scripted.bad_png [Scripted.good_png] [] 0%Z []
              (lit "http://x/bad.png") (lit "out/img_1.png")
              [(lit "out/img_1.png", 1)]
              (Scripted.error "cannot identify image file")
              [(lit "out/img_1.png", 1)] (Ok tt) [])
    as [Hloop Hgone]; try reflexivity.
  split; [exact Hloop|]. apply Hgone. reflexivity.
Defined.

(** Where the wording of C5 does not hold: on a host that denies
    removals, the image that does not decode is left out of the returned
    list, and its file is still on disk when the harvester returns. *)
Lemma C5_file_left_when_removal_fails :
  exists w1 e w',
    @fetch_image _
      (Scripted.host (Scripted.gallery [Scripted.bad_png] true None))
      (lit "out") (lit "http://x/bad.png") true 0 []
    = (Ok (lit "out/img_1.png"), w1) /\
    image_verify
      (Scripted.host (Scripted.gallery [Scripted.bad_png] true None))
      (lit "out/img_1.png") w1
    = (Raise e, w1) /\
    @download_images_from_html ascii_only _
      (Scripted.host (Scripted.gallery [Scripted.bad_png] true None))
      [] (lit "out") true 50 []
    = (Ok [], w') /\
    file_exists
      (Scripted.host (Scripted.gallery [Scripted.bad_png] true None))
      w' (lit "out/img_1.png")
    = true.
Proof.
  exists [(lit "out/img_1.png", 1)],
         (Scripted.error "cannot identify image file"),
         [(lit "out/img_1.png", 1)].
  repeat split; vm_compute; reflexivity.
Qed.

(* ================================================================== *)
(** * [process_url_pipeline] *)
(* ================================================================== *)

Section PipelineFacts.
Context {U : Unicode}.
Variable W : Type.
Variable H : Host W.
Variable cfg : Config.

(** C3: when the HTML that the fetch tiers end with contains both
    [access denied] and [reference] after lower-casing, the run returns
    [None] with the status [access_denied], straight after the fetch. *)
Theorem C3_access_denied_page_aborts (url html : str) (w0 w1 : W) :
  strip url <> [] ->
  fetch_html H cfg (strip url) w0 = (Ok (inr html), w1) ->
  contains (lit "access denied") (lower html) = true ->
  contains (lit "reference") (lower html) = true ->
  process_url_pipeline H cfg url w0 = (Ok (None, lit "access_denied"), w1).
Proof.
  intros Hurl Hfetch Hdenied Hreference.
  unfold process_url_pipeline.
  destruct (strip url) as [|u0 url'] eqn:Eurl; [now elim Hurl|].
  cbn [is_empty]. unfold bind at 1. rewrite Hfetch.
  unfold bind at 1. unfold prepare.
  destruct html as [|h0 html'].
  { cbn in Hdenied. discriminate Hdenied. }
  cbn [is_empty]. unfold access_denied_page.
  now rewrite Hdenied, Hreference.
Qed.

(** The early returns before the document writes carry no record. *)
Lemma fetch_html_early (url : str) (w w' : W) (out : outcome) :
  fetch_html H cfg url w = (Ok (inl out), w') -> fst out = None.
Proof.
  unfold fetch_html, bind, try_except, ret. intros E.
  break_matches E; try discriminate E; now inversion E.
Qed.

Lemma prepare_early (url html : str) (w w' : W) (out : outcome) :
  prepare H cfg url html w = (Ok (inl out), w') -> fst out = None.
Proof.
  unfold prepare, bind, try_except, gets, lift, ret. intros E.
  break_matches E; try discriminate E; now inversion E.
Qed.

Lemma save_all_cases (b : bundle) (w : W) :
  (exists w', save_all H b w = (Ok tt, w') /\ writes_succeed H b w w') \/
  (exists e w', save_all H b w = (Raise e, w') /\ write_throws H b w e w').
Proof.
  unfold save_all, bind, writes_succeed, write_throws.
  destruct (save_docx H _ _ _ _ w) as [[[]|e] wa] eqn:Ea.
  2:{ right. exists e, wa. split; [reflexivity|now left]. }
  destruct (save_pdf H _ _ _ _ wa) as [[[]|e] wb] eqn:Eb.
  2:{ right. exists e, wb. split; [reflexivity|].
      right. exists wa. split; [reflexivity|now left]. }
  destruct (save_txt H _ _ _ _ wb) as [[[]|e] wc] eqn:Ec.
  - left. exists wc. split; [reflexivity|]. now exists wa, wb.
  - right. exists e, wc. split; [reflexivity|].
    right. exists wa. split; [reflexivity|].
    right. exists wb. now split.
Qed.

Lemma write_throws_save_all (b : bundle) (w w' : W) (e : exn) :
  write_throws H b w e w' -> save_all H b w = (Raise e, w').
Proof.
  unfold write_throws, save_all, bind.
  intros [Ea|(wa & Ea & [Eb|(wb & Eb & Ec)])].
  - now rewrite Ea.
  - now rewrite Ea, Eb.
  - now rewrite Ea, Eb, Ec.
Qed.

(** C4.  In a run that reaches the document writes with the record [b]
    prepared: as soon as one of the three writes raises, the run returns
    [None] with the status [save_error: ] followed by the text of the
    exception, in the world the failed write left (what was written
    before stays written).  And in any run at all, a record is returned
    only with the status [ok], after a fetch and a preparation that
    yielded it and three writes that all returned. *)
Theorem C4_write_failure_fails_run (url : str) (w0 : W) :
  (forall html b w1 w2 e w3,
     strip url <> [] ->
     fetch_html H cfg (strip url) w0 = (Ok (inr html), w1) ->
     prepare H cfg (strip url) html w1 = (Ok (inr b), w2) ->
     write_throws H b w2 e w3 ->
     process_url_pipeline H cfg url w0
     = (Ok (None, lit "save_error: " ++ exn_str e), w3)) /\
  (forall b st w3,
     process_url_pipeline H cfg url w0 = (Ok (Some b, st), w3) ->
     st = lit "ok" /\
     exists html w1 w2,
       fetch_html H cfg (strip url) w0 = (Ok (inr html), w1) /\
       prepare H cfg (strip url) html w1 = (Ok (inr b), w2) /\
       writes_succeed H b w2 w3).
Proof.
  split.
  - intros html b w1 w2 e w3 Hurl Hfetch Hprep Hthrow.
    unfold process_url_pipeline.
    destruct (strip url) as [|u0 url'] eqn:Eurl; [now elim Hurl|].
    cbn [is_empty]. unfold bind at 1. rewrite Hfetch.
    unfold bind at 1. rewrite Hprep.
    unfold persist, try_except, bind.
    now rewrite (write_throws_save_all Hthrow).
  - intros b st w3. unfold process_url_pipeline.
    destruct (is_empty (strip url)); [discriminate|].
    unfold bind at 1.
    destruct (fetch_html H cfg (strip url) w0) as [[[out|html]|e] w1] eqn:Ef;
      [|  |discriminate].
    { intros E. apply fetch_html_early in Ef.
      injection E as -> _. discriminate Ef. }
    unfold bind at 1.
    destruct (prepare H cfg (strip url) html w1) as [[[out|b']|e] w2] eqn:Ep;
      [|  |discriminate].
    { intros E. apply prepare_early in Ep.
      injection E as -> _. discriminate Ep. }
    unfold persist, try_except, bind.
    destruct (save_all_cases b' w2) as [(w' & Es & Hok)|(e & w' & Es & _)];
      rewrite Es; intros E; [|discriminate E].
    injection E as <- <- <-. split; [reflexivity|].
    now exists html, w1, w2.
Qed.

End PipelineFacts.

(** C3 on the scripted host: the plain fetch and the browser both serve
    the blocking page. *)
Lemma C3_access_denied_page_aborts_witness :
  @process_url_pipeline ascii_only _ (Scripted.host Scripted.blocked)
    Scripted.config (lit " http://x/a ") []
  = (Ok (None, lit "access_denied"), []).
Proof.
  apply (@C3_access_denied_page_aborts ascii_only _
           (Scripted.host Scripted.blocked) Scripted.config
           (lit " http://x/a ")
           (lit "<H1>ACCESS DENIED</H1> Reference #18.2f") [] []).
  - discriminate.
  - vm_compute. reflexivity.
  - vm_compute. reflexivity.
  - vm_compute. reflexivity.
Defined.

(** C4 on the scripted host: the DOCX is written, the PDF writer then
    raises [disk full]; the run fails with that text in its status, and
    the DOCX is on disk all the same. *)
Lemma C4_write_failure_fails_run_witness :
  exists w3,
    @process_url_pipeline ascii_only _
      (Scripted.host
         (Scripted.gallery [Scripted.bad_png; Scripted.good_png] false
            (Some (Scripted.error "disk full"))))
      Scripted.config (lit " http://x/a ") []
    = (Ok (None, lit "save_error: disk full"), w3) /\
    Scripted.on_disk w3
      (lit "outputs_final/My_Article/summary_20240307_120000.docx")
    = true.
Proof.
  destruct (@C4_write_failure_fails_run ascii_only _
              (Scripted.host
                 (Scripted.gallery [Scripted.bad_png; Scripted.good_png]
                    false (Some (Scripted.error "disk full"))))
              Scripted.config (lit " http://x/a ") [])
    as [Hfail _].
  eexists. split.
  - eapply (Hfail _ _ _ _ (Scripted.error "disk full") _).
    + discriminate.
    + vm_compute. reflexivity.
    + vm_compute. reflexivity.
    + right. eexists. split; [vm_compute; reflexivity|].
      left. vm_compute. reflexivity.
  - vm_compute. reflexivity.
Defined.

(* ================================================================== *)
(** * Further properties: folder names *)
(* ================================================================== *)

Lemma startswith_app_r (p x post : str) :
  startswith p x = true -> startswith p (x ++ post) = true.
Proof.
  revert x. induction p as [|a p IH]; intros x Hx; [reflexivity|].
  destruct x as [|b x]; [discriminate|]. simpl in *.
  apply andb_prop in Hx as [Hab Hx]. now rewrite Hab, IH.
Qed.

Lemma contains_app_r (p x post : str) :
  contains p x = true -> contains p (x ++ post) = true.
Proof.
  induction x as [|b x IH]; intros Hx.
  - simpl in Hx. rewrite orb_false_r in Hx.
    destruct p; [|discriminate]. now destruct post.
  - cbn [contains] in Hx. apply orb_prop in Hx as [Hx|Hx].
    + pose proof (startswith_app_r _ _ post Hx) as Hs.
      simpl app in *. cbn [contains]. now rewrite Hs.
    + simpl app. cbn [contains]. rewrite (IH Hx). apply orb_true_r.
Qed.

Lemma contains_app_l (p pre x : str) :
  contains p x = true -> contains p (pre ++ x) = true.
Proof.
  intros Hx. induction pre as [|b pre IH]; [exact Hx|].
  simpl app. cbn [contains]. rewrite IH. apply orb_true_r.
Qed.

(** A string holds no [p] when a string around it holds none. *)
Lemma contains_piece (p pre x post : str) :
  contains p (pre ++ x ++ post) = false -> contains p x = false.
Proof.
  intros Hn. destruct (contains p x) eqn:Ex; [|reflexivity].
  now rewrite (contains_app_l _ pre _ (contains_app_r _ _ post Ex)) in Hn.
Qed.

Lemma lstrip_by_head (f : char -> bool) (s : str) (c : char) :
  hd_error (lstrip_by f s) = Some c -> f c = false.
Proof.
  induction s as [|b s IH]; simpl; [discriminate|].
  destruct (f b) eqn:Eb; [exact IH|].
  simpl. intros E. now injection E as <-.
Qed.

(** What [strip] leaves neither starts nor ends with a stripped
    character. *)
Lemma strip_by_ends (f : char -> bool) (s : str) (c : char) :
  (hd_error (strip_by f s) = Some c -> f c = false) /\
  (hd_error (rev (strip_by f s)) = Some c -> f c = false).
Proof.
  unfold strip_by, rstrip_by. set (t := lstrip_by f s). split.
  - destruct (lstrip_by_suffix f (rev t)) as [pre Hpre].
    apply (f_equal (@rev _)) in Hpre.
    rewrite rev_involutive, rev_app_distr in Hpre.
    destruct (rev (lstrip_by f (rev t))) as [|b r]; [discriminate|].
    simpl. intros E. injection E as ->.
    apply (lstrip_by_head f s). fold t. now rewrite Hpre.
  - rewrite rev_involutive. apply lstrip_by_head.
Qed.

Lemma sub_underscore_runs_single (s : str) (b : bool) :
  (b = true -> startswith [underscore] (sub_underscore_runs b s) = false) /\
  contains [underscore; underscore] (sub_underscore_runs b s) = false.
Proof.
  revert b. induction s as [|c s IH]; intros b.
  - split; reflexivity.
  - cbn [sub_underscore_runs].
    destruct (IH true) as [Ht Hc]. destruct (IH false) as [_ Hf].
    destruct (c =? underscore) eqn:Ec.
    + destruct b.
      * split; [intros _; now apply Ht|exact Hc].
      * split; [discriminate|].
        cbn [contains]. rewrite Hc, orb_false_r.
        cbn [startswith]. specialize (Ht eq_refl).
        destruct (sub_underscore_runs true s) as [|d r]; [apply andb_false_r|].
        cbn [startswith] in Ht. rewrite andb_true_r in Ht.
        now rewrite Ht, andb_false_r.
    + split.
      * intros _. cbn [startswith]. rewrite N.eqb_sym, Ec. reflexivity.
      * cbn [contains]. rewrite Hf, orb_false_r.
        cbn [startswith]. now rewrite N.eqb_sym, Ec.
Qed.

Lemma startswith_single (c : char) (s : str) :
  (forall d, hd_error s = Some d -> (c =? d) = false) ->
  startswith [c] s = false.
Proof.
  destruct s as [|d s]; [reflexivity|]. intros Hd. cbn [startswith].
  now rewrite (Hd d eq_refl).
Qed.

(** X2: The cleaned form of any title is made of [[A-Za-z0-9_]] only, has no
    doubled underscore, and neither starts nor ends with an underscore. *)
Theorem X2_clean_title_shape (title : str) :
  forallb is_safe_char (clean_title title) = true /\
  contains [underscore; underscore] (clean_title title) = false /\
  startswith [underscore] (clean_title title) = false /\
  startswith [underscore] (rev (clean_title title)) = false.
Proof.
  split; [|split; [|split]].
  - apply forallb_forall. apply Forall_forall. apply clean_title_safe.
  - unfold clean_title.
    match goal with |- context [strip_by ?f ?s] =>
      destruct (strip_by_pieces f s) as (pre & post & E);
      apply (contains_piece _ pre _ post); rewrite <- E
    end.
    apply sub_underscore_runs_single.
  - apply startswith_single. intros d Hd. unfold clean_title in Hd.
    now apply strip_by_ends in Hd.
  - apply startswith_single. intros d Hd. unfold clean_title in Hd.
    now apply strip_by_ends in Hd.
Qed.

Lemma decimal_length (k : nat) (bound n : N) :
  forallb (fun i => (length (decimal (N.of_nat i)) <=? k)%nat)
          (seq 0 (N.to_nat bound))
  = true ->
  n < bound ->
  (length (decimal n) <= k)%nat.
Proof.
  intros Hall Hn. rewrite forallb_forall in Hall.
  specialize (Hall (N.to_nat n)). rewrite N2Nat.id in Hall.
  apply Nat.leb_le, Hall, in_seq. lia.
Qed.

Lemma zero_pad_length (w : nat) (s : str) :
  (length s <= w)%nat -> length (zero_pad w s) = w.
Proof.
  intros Hs. unfold zero_pad. rewrite length_app, repeat_length.
  unfold str, char in *. lia.
Qed.

(** The stamp of a valid clock reading has 15 characters. *)
Lemma strftime_stamp_length (dt : datetime) :
  valid_datetime dt -> length (strftime_stamp dt) = 15%nat.
Proof.
  intros (Hy & Hm & Hd & Hh & Hmi & Hs).
  assert (H2 : forall n, n <= 99 -> length (zero_pad 2 (decimal n)) = 2%nat).
  { intros n Hn. apply zero_pad_length.
    apply (@decimal_length 2 100 n); [vm_compute; reflexivity|lia]. }
  assert (H4 : forall n, n <= 9999 -> length (zero_pad 4 (decimal n)) = 4%nat).
  { intros n Hn. apply zero_pad_length.
    apply (@decimal_length 4 10000 n); [vm_compute; reflexivity|lia]. }
  unfold strftime_stamp. rewrite !length_app.
  rewrite H4 by exact Hy. rewrite !H2 by lia. reflexivity.
Qed.

(** X1: Whatever the title, [short_safe_folder] returns a path (it never
    raises) whose basename is not empty, is made of [[A-Za-z0-9_]] only and
    has at most 60 characters. *)
Theorem X1_folder_name_always_valid (now : datetime) (title base_dir : str) :
  valid_datetime now ->
  exists p,
    short_safe_folder now title base_dir 60 = Ok p /\
    basename p <> [] /\
    forallb is_safe_char (basename p) = true /\
    (len (basename p) <= 60)%Z.
Proof.
  intros Hnow.
  assert (Hshape : forall short,
            short <> [] ->
            Forall (fun c => is_safe_char c = true) short ->
            (len short <= 60)%Z ->
            basename (path_join base_dir short) <> [] /\
            forallb is_safe_char (basename (path_join base_dir short)) = true /\
            (len (basename (path_join base_dir short)) <= 60)%Z).
  { intros short Hne Hsafe Hlen.
    rewrite (basename_path_join base_dir short (no_slash_of_safe Hsafe)).
    repeat split; auto. apply forallb_forall. now apply Forall_forall. }
  assert (Hcase : forall t,
            t <> [] ->
            exists p,
              short_safe_folder now t base_dir 60 = Ok p /\
              basename p <> [] /\
              forallb is_safe_char (basename p) = true /\
              (len (basename p) <= 60)%Z).
  { intros t Ht. destruct (Z.leb_spec (len (clean_title t)) 60) as [Hle|Hgt].
    - destruct (clean_title t) as [|c0 cl] eqn:Ec.
      + exists (path_join base_dir (lit "article_" ++ strftime_stamp now)).
        split.
        * unfold short_safe_folder. destruct t; [now elim Ht|].
          cbn [is_empty]. now rewrite Ec.
        * apply Hshape.
          -- discriminate.
          -- apply Forall_app. split; [|apply strftime_stamp_safe].
             apply Forall_forall. apply forallb_forall. reflexivity.
          -- unfold len. rewrite length_app, strftime_stamp_length by exact Hnow.
             simpl. lia.
      + exists (path_join base_dir (c0 :: cl)). split.
        * unfold short_safe_folder. destruct t; [now elim Ht|].
          cbn [is_empty]. rewrite Ec.
          now replace (len (c0 :: cl) <=? 60)%Z with true
            by (symmetry; apply Z.leb_le; exact Hle).
        * apply Hshape; [discriminate| |exact Hle].
          rewrite <- Ec. apply clean_title_safe.
    - eexists. split; [apply short_safe_folder_long; exact Hgt|].
      destruct (hexdigest_shape (clean_title t)) as [Hl Hh].
      apply Hshape.
      + intros E. apply app_eq_nil in E as [_ E]. discriminate E.
      + apply Forall_app. split; [apply Forall_firstn, clean_title_safe|].
        constructor; [reflexivity|].
        eapply Forall_impl; [apply hex_char_safe|].
        apply Forall_firstn. exact Hh.
      + unfold len in *. rewrite length_app, length_firstn.
        cbn [length]. rewrite length_firstn, Hl. lia. }
  destruct title as [|c title].
  - destruct (Hcase (lit "article")) as (p & Hp & Hrest); [discriminate|].
    exists p. split; [exact Hp|exact Hrest].
  - apply Hcase. discriminate.
Qed.

(** X1 at the title [???] and the noon of the scripted clock. *)
Lemma X1_folder_name_always_valid_witness :
  exists p,
    short_safe_folder Scripted.noon (lit "???") OUTPUT_BASE 60 = Ok p /\
    basename p <> [] /\
    forallb is_safe_char (basename p) = true /\
    (len (basename p) <= 60)%Z.
Proof.
  apply X1_folder_name_always_valid. unfold valid_datetime. simpl.
  repeat split; lia.
Defined.

(* ================================================================== *)
(** * Further properties: sentences *)
(* ================================================================== *)

Lemma nonspace_app (a b : str) : nonspace (a ++ b) = nonspace a ++ nonspace b.
Proof. apply filter_app. Qed.

Lemma nonspace_lstrip (s : str) : nonspace (lstrip_by isspace s) = nonspace s.
Proof.
  induction s as [|c s IH]; [reflexivity|]. cbn [lstrip_by].
  destruct (isspace c) eqn:Ec; [|reflexivity].
  rewrite IH. unfold nonspace. cbn [filter]. now rewrite Ec.
Qed.

Lemma nonspace_rev (s : str) : nonspace (rev s) = rev (nonspace s).
Proof.
  induction s as [|c s IH]; [reflexivity|]. simpl rev.
  rewrite nonspace_app, IH. unfold nonspace at 2 3. cbn [filter].
  destruct (negb (isspace c)); simpl; [reflexivity|now rewrite app_nil_r].
Qed.

(** [strip] takes away whitespace only. *)
Lemma nonspace_strip (s : str) : nonspace (strip s) = nonspace s.
Proof.
  unfold strip, strip_by, rstrip_by.
  now rewrite nonspace_rev, nonspace_lstrip, nonspace_rev, rev_involutive,
    nonspace_lstrip.
Qed.

Lemma nonspace_join (l : list str) :
  nonspace (join (lit " ") l) = nonspace (concat l).
Proof.
  induction l as [|a l IH]; [reflexivity|].
  destruct l as [|b l].
  - simpl. now rewrite app_nil_r.
  - change (join (lit " ") (a :: b :: l))
      with (a ++ lit " " ++ join (lit " ") (b :: l)).
    change (concat (a :: b :: l)) with (a ++ concat (b :: l)).
    now rewrite !nonspace_app, IH.
Qed.

Lemma pattern_en_space : splits_on_space pattern_en.
Proof.
  intros a c [<-|[<-|[]]]; cbn [run]; intros Hc; [exact Hc|].
  apply N.eqb_eq in Hc. now subst c.
Qed.

Lemma pattern_hi_space : splits_on_space pattern_hi.
Proof.
  intros a c [<-|[<-|[<-|[]]]]; cbn [run]; intros Hc; try exact Hc.
  apply N.eqb_eq in Hc. now subst c.
Qed.

Lemma re_split_nonspace (alts : list alt) :
  splits_on_space alts ->
  forall s consuming prev cur,
    (forall cls c, consuming = Some cls -> cls c = true -> isspace c = true) ->
    nonspace (concat (re_split alts consuming prev cur s))
    = nonspace (rev cur ++ s).
Proof.
  intros Halts. induction s as [|c s IH]; intros consuming prev cur Hcons.
  - simpl. now rewrite !app_nil_r.
  - cbn [re_split].
    assert (Hdrop : isspace c = true ->
                    nonspace (rev cur ++ c :: s) = nonspace (rev cur ++ s)).
    { intros Hc. rewrite !nonspace_app. f_equal.
      unfold nonspace. cbn [filter]. now rewrite Hc. }
    destruct (match consuming with Some cls => cls c | None => false end)
      eqn:Erun.
    + destruct consuming as [cls|]; [|discriminate].
      rewrite (IH _ _ _ Hcons). symmetry. apply Hdrop.
      now apply (Hcons cls).
    + destruct (find (alt_starts prev c) alts) as [a|] eqn:Ef.
      * apply find_some in Ef as [Hin Hst].
        apply andb_prop in Hst as [Hrun _].
        cbn [concat]. rewrite nonspace_app, IH.
        -- rewrite <- nonspace_app. simpl rev. cbn [app]. symmetry.
           apply Hdrop. now apply (Halts a).
        -- intros cls d E. injection E as <-. now apply Halts.
      * rewrite IH by discriminate. simpl rev.
        now rewrite <- app_assoc.
Qed.

Lemma nonspace_trimmed (l : list str) :
  nonspace
    (concat (map strip (filter (fun s => negb (is_empty (strip s))) l)))
  = nonspace (concat l).
Proof.
  induction l as [|f l IH]; [reflexivity|]. cbn [filter].
  destruct (strip f) as [|c r] eqn:Es; cbn [is_empty negb].
  - cbn [concat]. rewrite nonspace_app, <- (nonspace_strip f), Es. exact IH.
  - cbn [map concat]. now rewrite !nonspace_app, IH, nonspace_strip.
Qed.

(** X4: Splitting into sentences loses nothing but whitespace: the sentences,
    read one after the other, hold the characters of the text that are not
    whitespace, in the same order. *)
Theorem X4_sentences_keep_text (text lang : str) :
  nonspace (concat (split_sentences text lang)) = nonspace text.
Proof.
  unfold split_sentences. destruct (strip text) as [|c r] eqn:Es.
  - cbn [is_empty]. now rewrite <- (nonspace_strip text), Es.
  - cbn [is_empty]. rewrite nonspace_trimmed.
    rewrite <- (nonspace_strip text), Es.
    destruct (devanagari_branch lang (c :: r));
      rewrite re_split_nonspace; auto using pattern_en_space, pattern_hi_space;
      discriminate.
Qed.

Section ShortSummary.
Context {U : Unicode}.

(** X5: A text within the maximum is summarised without the loss of a single
    character other than whitespace. *)
Theorem X5_short_summary_keeps_text (text lang : str) (max_sentences : Z) :
  (len (split_sentences text lang) <= max_sentences)%Z ->
  nonspace (extractive_summary text max_sentences lang) = nonspace text.
Proof.
  intros Hlen.
  assert (Hjoin : extractive_summary text max_sentences lang
                  = join (lit " ") (split_sentences text lang)).
  { unfold extractive_summary.
    destruct (split_sentences text lang) as [|s0 sents]; [reflexivity|].
    cbn [is_empty].
    now replace (len (s0 :: sents) <=? max_sentences)%Z with true
      by (symmetry; apply Z.leb_le; exact Hlen). }
  rewrite Hjoin, nonspace_join. clear Hjoin Hlen.
  unfold split_sentences. destruct (strip text) as [|c r] eqn:Es.
  - cbn [is_empty]. now rewrite <- (nonspace_strip text), Es.
  - cbn [is_empty]. rewrite nonspace_trimmed.
    rewrite <- (nonspace_strip text), Es.
    destruct (devanagari_branch lang (c :: r));
      rewrite re_split_nonspace; auto using pattern_en_space, pattern_hi_space;
      discriminate.
Qed.

End ShortSummary.

(** X5 at a text of two lines. *)
Lemma X5_short_summary_keeps_text_witness :
  nonspace (@extractive_summary ascii_only
              (lit "A." ++ [newline] ++ lit "B.") 50 (lit "en"))
  = nonspace (lit "A." ++ [newline] ++ lit "B.").
Proof.
  apply (@X5_short_summary_keeps_text ascii_only). vm_compute. discriminate.
Defined.

Lemma re_split_no_newline (alts : list alt) :
  In {| behind := None; run := N.eqb newline |} alts ->
  forall s consuming prev cur f,
    ~ In newline cur ->
    In f (re_split alts consuming prev cur s) ->
    ~ In newline f.
Proof.
  intros Halt. induction s as [|c s IH]; intros consuming prev cur f Hcur.
  - simpl. intros [<-|[]]. now rewrite <- in_rev.
  - cbn [re_split].
    destruct (match consuming with Some cls => cls c | None => false end).
    + now apply IH.
    + destruct (find (alt_starts prev c) alts) as [a|] eqn:Ef.
      * intros [<-|Hf]; [now rewrite <- in_rev|].
        apply (IH _ _ _ _ (@in_nil _ _) Hf).
      * apply IH. intros [E|Hin]; [|now apply Hcur]. subst c.
        pose proof (find_none _ _ Ef _ Halt) as Hno.
        unfold alt_starts in Hno. cbn [run behind] in Hno.
        now rewrite N.eqb_refl in Hno.
Qed.

Lemma strip_by_subset (f : char -> bool) (s : str) (c : char) :
  In c (strip_by f s) -> In c s.
Proof.
  intros Hc. destruct (strip_by_pieces f s) as (pre & post & E).
  rewrite E. apply in_or_app. right. apply in_or_app. now left.
Qed.

(** X3: Every sentence is non-empty, neither starts nor ends with whitespace,
    and holds no newline. *)
Theorem X3_sentences_trimmed_single_line (text lang s : str) :
  In s (split_sentences text lang) ->
  s <> [] /\
  (forall c, hd_error s = Some c -> isspace c = false) /\
  (forall c, hd_error (rev s) = Some c -> isspace c = false) /\
  ~ In newline s.
Proof.
  unfold split_sentences. destruct (is_empty (strip text)); [intros []|].
  intros Hs. apply in_map_iff in Hs as (f & <- & Hf).
  apply filter_In in Hf as [Hf Hne].
  split; [|split; [|split]].
  - intros E. now rewrite E in Hne.
  - intros c Hc. unfold strip in Hc. now apply strip_by_ends in Hc.
  - intros c Hc. unfold strip in Hc. now apply strip_by_ends in Hc.
  - intros Hnl. apply strip_by_subset in Hnl. revert Hnl.
    destruct (devanagari_branch lang (strip text));
      eapply re_split_no_newline; try exact Hf; simpl; auto.
Qed.

(** X3 at a sentence of a text of two lines. *)
Lemma X3_sentences_trimmed_single_line_witness :
  lit "B." <> [] /\
  (forall c, hd_error (lit "B.") = Some c -> isspace c = false) /\
  (forall c, hd_error (rev (lit "B.")) = Some c -> isspace c = false) /\
  ~ In newline (lit "B.").
Proof.
  apply (@X3_sentences_trimmed_single_line
           (lit " A. " ++ [newline] ++ lit " B.  ") (lit "en") (lit "B.")).
  vm_compute. right. left. reflexivity.
Defined.

Lemma lstrip_by_noop (f : char -> bool) (s : str) :
  (forall c, hd_error s = Some c -> f c = false) -> lstrip_by f s = s.
Proof.
  destruct s as [|c s]; [reflexivity|]. intros Hc. cbn [lstrip_by].
  now rewrite (Hc c eq_refl).
Qed.

(** Stripping twice is stripping once. *)
Lemma strip_by_idempotent (f : char -> bool) (s : str) :
  strip_by f (strip_by f s) = strip_by f s.
Proof.
  set (t := strip_by f s). unfold strip_by at 1. unfold rstrip_by.
  rewrite (lstrip_by_noop f t).
  2:{ intros c Hc. unfold t in Hc. now apply strip_by_ends in Hc. }
  rewrite (lstrip_by_noop f (rev t)).
  2:{ intros c Hc. unfold t in Hc. now apply strip_by_ends in Hc. }
  apply rev_involutive.
Qed.

Lemma one_of_tail (c x : char) (cs : list char) :
  one_of (x :: cs) c = false -> one_of cs c = false.
Proof.
  unfold one_of. cbn [existsb]. intros Hc.
  now apply orb_false_elim in Hc as [_ Hc].
Qed.

(** With no terminator of the stored class and no newline in sight, the
    Devanagari pattern never matches. *)
Lemma re_split_hi_whole (s : str) :
  Forall (fun c => one_of [0xE0; 0xA5; 0xA4; 33; 63] c = false
                   /\ c <> newline) s ->
  forall prev cur,
    (forall p, prev = Some p -> one_of [0xE0; 0xA5; 0xA4; 33; 63] p = false) ->
    re_split pattern_hi None prev cur s = [rev cur ++ s].
Proof.
  induction 1 as [|c s [Hc Hnl] Hs IH]; intros prev cur Hprev.
  - simpl. now rewrite app_nil_r.
  - cbn [re_split].
    assert (Hfind : find (alt_starts prev c) pattern_hi = None).
    { unfold pattern_hi, alt_starts. cbn [find run behind].
      destruct prev as [p|].
      - pose proof (Hprev p eq_refl) as Hp. rewrite Hp.
        do 3 apply one_of_tail in Hp. rewrite Hp, !andb_false_r.
        apply N.eqb_neq in Hnl. rewrite N.eqb_sym in Hnl. now rewrite Hnl.
      - rewrite !andb_false_r.
        apply N.eqb_neq in Hnl. rewrite N.eqb_sym in Hnl. now rewrite Hnl. }
    rewrite Hfind, IH.
    + simpl rev. now rewrite <- app_assoc.
    + intros p E. now injection E as <-.
Qed.

(** X6: In the Devanagari branch the class of sentence terminators is, as the
    file stores it, the code points U+00E0, U+00A5, U+00A4 and [!?]: the
    danda U+0964 is not in it.  So a text with none of those five and no
    newline, however many dandas it has, is one sentence. *)
Theorem X6_danda_does_not_split (text lang : str) :
  strip text <> [] ->
  devanagari_branch lang (strip text) = true ->
  Forall (fun c => one_of [0xE0; 0xA5; 0xA4; 33; 63] c = false
                   /\ c <> newline) text ->
  split_sentences text lang = [strip text].
Proof.
  intros Hne Hbranch Hchars. unfold split_sentences.
  destruct (strip text) as [|c0 t] eqn:Es; [now elim Hne|].
  cbn [is_empty]. rewrite Hbranch. rewrite re_split_hi_whole.
  - assert (Hid : strip (c0 :: t) = c0 :: t).
    { rewrite <- Es. unfold strip. apply strip_by_idempotent. }
    cbn [rev app filter]. rewrite Hid. cbn [is_empty negb map].
    now rewrite Hid.
  - rewrite <- Es. apply Forall_forall. intros c Hc.
    unfold strip in Hc. apply strip_by_subset in Hc.
    revert c Hc. now apply Forall_forall.
  - discriminate.
Qed.

(** X6 at two Hindi clauses, each closed by a danda. *)
Lemma X6_danda_does_not_split_witness :
  split_sentences [0x915; 0x939; 0x93E; 0x964; 32; 0x916; 0x964] (lit "hi")
  = [[0x915; 0x939; 0x93E; 0x964; 32; 0x916; 0x964]].
Proof.
  apply (@X6_danda_does_not_split
           [0x915; 0x939; 0x93E; 0x964; 32; 0x916; 0x964] (lit "hi")).
  - discriminate.
  - reflexivity.
  - repeat constructor; discriminate.
Defined.

(* ================================================================== *)
(** * Further properties: the Devanagari paraphraser *)
(* ================================================================== *)

Lemma str_replace_id (k v s : str) :
  contains k s = false -> str_replace k v s = s.
Proof.
  unfold str_replace. induction s as [|c s IH]; [reflexivity|].
  cbn [contains]. intros Hn. apply orb_false_elim in Hn as [Hst Hn].
  cbn [str_replace_from]. now rewrite Hst, IH.
Qed.

Lemma contains_head (a : char) (k s : str) :
  contains (a :: k) s = true -> In a s.
Proof.
  induction s as [|c s IH]; cbn [contains startswith]; [discriminate|].
  intros Hc. apply orb_prop in Hc as [Hc|Hc].
  - apply andb_prop in Hc as [Hc _]. apply N.eqb_eq in Hc. now left.
  - right. now apply IH.
Qed.

Section DevanagariFacts.
Context {U : Unicode}.

Lemma paraphrase_hi_fixed (text lang : str) :
  devanagari_branch lang text = true ->
  (forall k v, In (k, v) syn_hi -> str_replace k v text = text) ->
  paraphrase_text text lang = text.
Proof.
  intros Hbranch Hid. unfold paraphrase_text.
  destruct (is_empty text) eqn:Ee; [now destruct text|].
  rewrite Hbranch. unfold syn_hi in *. cbn [fold_left fst snd].
  rewrite !Hid; simpl; auto 10.
Qed.

(** X7: In the Devanagari branch, a text that holds none of the three stored
    keys as a substring is returned unchanged. *)
Theorem X7_devanagari_identity_without_keys (text lang : str) :
  devanagari_branch lang text = true ->
  (forall k v, In (k, v) syn_hi -> contains k text = false) ->
  paraphrase_text text lang = text.
Proof.
  intros Hbranch Hno. apply paraphrase_hi_fixed; [exact Hbranch|].
  intros k v Hin. apply str_replace_id. eapply Hno. exact Hin.
Qed.

(** X8: Every stored key begins with the code point U+00E0, which is no
    Devanagari character: in the Devanagari branch a text without U+00E0,
    in particular any text written in Devanagari, is returned unchanged. *)
Theorem X8_devanagari_text_never_changed (text lang : str) :
  devanagari_branch lang text = true ->
  ~ In 0xE0 text ->
  paraphrase_text text lang = text.
Proof.
  intros Hbranch Hno. apply paraphrase_hi_fixed; [exact Hbranch|].
  intros k v Hin. apply str_replace_id.
  destruct (contains k text) eqn:Ec; [|reflexivity].
  elim Hno. unfold syn_hi in Hin. simpl in Hin.
  repeat (destruct Hin as [Hin|Hin];
          [injection Hin as <- <-; now apply contains_head in Ec|]).
  contradiction.
Qed.

End DevanagariFacts.

(** X7 at a Hindi word that is none of the keys. *)
Lemma X7_devanagari_identity_without_keys_witness :
  @paraphrase_text ascii_only [0x928; 0x92E; 0x938; 0x94D; 0x924; 0x947]
    (lit "hi")
  = [0x928; 0x92E; 0x938; 0x94D; 0x924; 0x947].
Proof.
  apply (@X7_devanagari_identity_without_keys ascii_only).
  - reflexivity.
  - intros k v Hin. simpl in Hin.
    repeat (destruct Hin as [Hin|Hin];
            [injection Hin as <- <-; vm_compute; reflexivity|]).
    contradiction.
Defined.

(** X8 at the Hindi word that the first key is meant to be (U+0915 U+0939
    U+093E): it is not rewritten. *)
Lemma X8_devanagari_text_never_changed_witness :
  @paraphrase_text ascii_only [0x915; 0x939; 0x93E] (lit "hi")
  = [0x915; 0x939; 0x93E].
Proof.
  apply (@X8_devanagari_text_never_changed ascii_only).
  - reflexivity.
  - intros Hin. simpl in Hin.
    repeat (destruct Hin as [Hin|Hin]; [discriminate Hin|]).
    contradiction.
Defined.

(* ================================================================== *)
(** * Further properties: the summary under a negative maximum *)
(* ================================================================== *)

Section SelectionFacts.
Context {U : Unicode}.

(** The positions lines 102-104 select when the slice keeps [m] of them. *)
Lemma top_selection (text : str) (sents : list str) (m : nat) :
  (m <= length sents)%nat ->
  forall scores idx,
    scores = map (fun p => (fst p, sentence_score text (snd p)))
                 (enumerate sents) ->
    idx = sorted Z.of_nat false
            (firstn m (sorted (dict_get scores) true (map fst scores))) ->
    length idx = m /\
    StronglySorted lt idx /\
    Forall (fun i => (i < length sents)%nat) idx /\
    forall i j,
      In i idx -> (j < length sents)%nat -> ~ In j idx ->
      ranks_before (fun n => sentence_score text (nth n sents [])) i j.
Proof.
  intros Hm scores idx Hscores Hidx.
  set (sc := sentence_score text) in *.
  assert (Hkeys : map fst scores = seq 0 (length sents)).
  { subst scores. unfold enumerate. now apply scores_keys. }
  assert (Hget : forall i, (i < length sents)%nat ->
                           dict_get scores i = sc (nth i sents [])).
  { intros i Hi. subst scores. unfold enumerate.
    rewrite (scores_get sc [] sents (a := 0) (i := i)) by lia.
    now rewrite Nat.sub_0_r. }
  rewrite Hkeys in Hidx.
  set (order := sorted (dict_get scores) true (seq 0 (length sents))) in *.
  assert (Hperm : Permutation (seq 0 (length sents)) order)
    by apply sorted_perm.
  assert (Horder : StronglySorted (ranks_before (dict_get scores)) order)
    by apply sorted_reverse_ranks.
  set (top := firstn m order) in *.
  assert (Hnd : NoDup top).
  { apply NoDup_firstn. eapply Permutation_NoDup; [exact Hperm|].
    apply seq_NoDup. }
  assert (Hpi : Permutation top idx) by (subst idx; apply sorted_perm).
  assert (Hrange : forall i, In i order -> (i < length sents)%nat).
  { intros i Hi. apply (Permutation_in _ (Permutation_sym Hperm)) in Hi.
    apply in_seq in Hi. lia. }
  assert (Htop : forall i, In i idx -> In i top).
  { intros i Hi. now apply (Permutation_in _ (Permutation_sym Hpi)). }
  assert (Hsub : forall i, In i top -> In i order).
  { intros i Hi. rewrite <- (firstn_skipn m order).
    apply in_or_app. now left. }
  repeat split.
  - rewrite <- (Permutation_length Hpi). unfold top.
    rewrite length_firstn, <- (Permutation_length Hperm), length_seq. lia.
  - subst idx. now apply sorted_ascending_strict.
  - apply Forall_forall. intros i Hi. auto.
  - intros i j Hi Hj Hnj.
    assert (Hjo : In j (skipn m order)).
    { apply firstn_skipn_split.
      - apply (Permutation_in _ Hperm), in_seq. lia.
      - intros Hjt. apply Hnj. now apply (Permutation_in _ Hpi). }
    rewrite <- (firstn_skipn m order) in Horder.
    pose proof (StronglySorted_app_inv _ _ Horder i j (Htop i Hi) Hjo) as Hr.
    unfold ranks_before in *.
    rewrite (Hget i), (Hget j) in Hr by auto. exact Hr.
Qed.

(** X9: A negative [max_sentences] does not give an empty summary: the slice
    [[:max_sentences]] then drops the [-max_sentences] lowest-ranked
    positions, so of [n] sentences the summary keeps [max(0, n +
    max_sentences)], the best-ranked ones, in their original order. *)
Theorem X9_negative_maximum_drops_lowest (text lang : str)
    (max_sentences : Z) :
  (max_sentences < 0)%Z ->
  exists idx : list nat,
    extractive_summary text max_sentences lang
    = join (lit " ") (map (fun i => nth i (split_sentences text lang) []) idx) /\
    len idx = Z.max 0 (len (split_sentences text lang) + max_sentences) /\
    StronglySorted lt idx /\
    Forall (fun i => (i < length (split_sentences text lang))%nat) idx /\
    forall i j,
      In i idx -> (j < length (split_sentences text lang))%nat -> ~ In j idx ->
      ranks_before
        (fun n => sentence_score text (nth n (split_sentences text lang) []))
        i j.
Proof.
  intros Hneg. unfold extractive_summary.
  set (sents := split_sentences text lang).
  destruct sents as [|s0 sents'] eqn:Es.
  { exists []. cbn [is_empty]. split; [reflexivity|].
    split; [unfold len; simpl; lia|].
    split; [constructor|]. split; [constructor|]. intros i j []. }
  rewrite <- Es. replace (is_empty sents) with false by now rewrite Es.
  replace (len sents <=? max_sentences)%Z with false
    by (symmetry; apply Z.leb_gt; unfold len; lia).
  set (scores := map (fun p => (fst p, sentence_score text (snd p)))
                     (enumerate sents)).
  set (order := sorted (dict_get scores) true (map fst scores)).
  set (m := Z.to_nat (len sents + max_sentences)).
  assert (Hlen : length order = length sents).
  { unfold order. rewrite <- (Permutation_length (sorted_perm _ true _)).
    unfold scores, enumerate. rewrite scores_keys by reflexivity.
    apply length_seq. }
  assert (Hslice : slice_to max_sentences order = firstn m order).
  { unfold slice_to. replace (max_sentences <? 0)%Z with true
      by (symmetry; apply Z.ltb_lt; exact Hneg).
    unfold m, len. now rewrite Hlen. }
  rewrite Hslice.
  assert (Hm : (m <= length sents)%nat) by (unfold m, len; lia).
  destruct (top_selection text sents Hm eq_refl eq_refl)
    as (Hl & Hsorted & Hrange & Hrank).
  fold scores in Hl, Hsorted, Hrange, Hrank.
  fold order in Hl, Hsorted, Hrange, Hrank.
  eexists. split; [reflexivity|]. repeat split; auto.
  unfold len. rewrite Hl. unfold m, len. lia.
Qed.

End SelectionFacts.

(** X9 at a text of four sentences and [max_sentences = -1]. *)
Lemma X9_negative_maximum_drops_lowest_witness :
  exists idx : list nat,
    @extractive_summary ascii_only (lit "One two. One two. Six. One two.")
      (-1) (lit "en")
    = join (lit " ")
        (map (fun i =>
                nth i (split_sentences (lit "One two. One two. Six. One two.")
                         (lit "en")) [])
             idx) /\
    len idx
    = Z.max 0 (len (split_sentences (lit "One two. One two. Six. One two.")
                      (lit "en")) + -1) /\
    StronglySorted lt idx /\
    Forall (fun i =>
              (i < length (split_sentences
                             (lit "One two. One two. Six. One two.")
                             (lit "en")))%nat) idx /\
    forall i j,
      In i idx ->
      (j < length (split_sentences (lit "One two. One two. Six. One two.")
                     (lit "en")))%nat ->
      ~ In j idx ->
      ranks_before
        (fun n =>
           @sentence_score ascii_only (lit "One two. One two. Six. One two.")
             (nth n (split_sentences (lit "One two. One two. Six. One two.")
                       (lit "en")) []))
        i j.
Proof.
  apply (@X9_negative_maximum_drops_lowest ascii_only
           (lit "One two. One two. Six. One two.") (lit "en") (-1)).
  lia.
Defined.

(* ================================================================== *)
(** * Further properties: the image harvester *)
(* ================================================================== *)

Section HarvestNames.
Context {U : Unicode}.
Variable W : Type.
Variable H : Host W.
Variables (folder : str) (ssl : bool) (cap : Z).

Lemma fetch_image_path (src : str) (c : Z) (w w1 : W) (outpath : str) :
  fetch_image H folder src ssl c w = (Ok outpath, w1) ->
  outpath = image_path H folder (c + 1) src.
Proof.
  unfold fetch_image, raise_for_status, bind, ret, raise. intros E.
  unfold image_path, image_ext. cbv zeta in *.
  break_matches E; try discriminate E; now inversion E.
Qed.

Lemma harvest_one_numbered (img : img_tag) (saved : list str) (c : Z)
    (w w' : W) (st' : list str * Z) :
  harvest_one H folder ssl img (saved, c) w = (Ok st', w') ->
  st' = (saved, c) \/
  exists src,
    image_source img = Some src /\
    st' = (saved ++ [image_path H folder (c + 1) src], (c + 1)%Z).
Proof.
  unfold harvest_one. destruct (image_source img) as [src|].
  2:{ intros E. injection E as <- _. now left. }
  unfold try_except, bind.
  destruct (fetch_image H folder src ssl c w) as [[outpath|e] w1] eqn:Ef.
  2:{ intros E. injection E as <- _. now left. }
  apply fetch_image_path in Ef. subst outpath.
  destruct (verify_or_remove H (image_path H folder (c + 1) src) w1) as [[[]|e] w2].
  - intros E. injection E as <- _. right. now exists src.
  - intros E. injection E as <- _. now left.
  - intros E. injection E as <- _. now left.
Qed.

Lemma harvest_loop_numbered (all : list img_tag) (imgs : list img_tag) :
  (forall img, In img imgs -> In img all) ->
  forall st w st' w',
    harvest_loop H folder ssl cap imgs st w = (Ok st', w') ->
    numbered H folder all st -> numbered H folder all st'.
Proof.
  induction imgs as [|img rest IH]; intros Hall st w st' w' E Hst.
  - injection E as <- _. exact Hst.
  - cbn [harvest_loop] in E. destruct (snd st >=? cap)%Z.
    + injection E as <- _. exact Hst.
    + unfold bind in E. destruct st as [saved c].
      destruct (harvest_one H folder ssl img (saved, c) w)
        as [[st1|e] w1] eqn:E1; [|discriminate E].
      apply (IH (fun x Hx => Hall x (or_intror Hx)) _ _ _ _ E).
      apply harvest_one_numbered in E1 as [->|(src & Hsrc & ->)];
        [exact Hst|].
      destruct Hst as [Hc Hp]. split; cbn [fst snd] in *.
      * unfold len. rewrite length_app. simpl length. unfold len in Hc. lia.
      * intros i p Hi.
        destruct (Nat.lt_ge_cases i (length saved)) as [Hlt|Hge].
        -- rewrite nth_error_app1 in Hi by exact Hlt. now apply Hp.
        -- rewrite nth_error_app2 in Hi by exact Hge.
           destruct (i - length saved)%nat as [|k] eqn:Ek;
             [|destruct k; discriminate Hi].
           injection Hi as <-. exists img, src.
           split; [apply Hall; now left|]. split; [exact Hsrc|].
           f_equal. unfold len in Hc. lia.
Qed.

(** X10: The paths returned are numbered in the order saved, from 1 and without
    a gap (an image that fails takes no number): the [i]-th is
    [img_<i>] with the extension of its source, in the folder, and its
    source is one an [<img>] tag of the page gives. *)
Theorem X10_saved_images_numbered (html : str) (w w' : W)
    (paths : list str) :
  download_images_from_html H html folder ssl cap w = (Ok paths, w') ->
  forall i p,
    nth_error paths i = Some p ->
    exists img src,
      In img (find_all_img H html) /\
      image_source img = Some src /\
      p = path_join folder
            (lit "img_" ++ int_str (Z.of_nat i + 1) ++ image_ext H src).
Proof.
  unfold download_images_from_html, bind. intros E.
  destruct (harvest_loop H folder ssl cap (find_all_img H html) ([], 0%Z) w)
    as [[st|e] w1] eqn:El; [|discriminate E].
  injection E as <- _.
  apply (harvest_loop_numbered (all := find_all_img H html)) in El.
  - exact (proj2 El).
  - auto.
  - split; [reflexivity|]. intros i p Hi. destruct i; discriminate Hi.
Qed.



End HarvestNames.

(** X10 on the scripted host: of a bad and a good image, the good one is
    saved as [img_1]. *)
Lemma X10_saved_images_numbered_witness :
  exists img src,
    In img [Scripted.bad_png; Scripted.good_png] /\
    @image_source ascii_only img = Some src /\
    lit "out/img_1.png"
    = path_join (lit "out")
        (lit "img_" ++ int_str (Z.of_nat 0 + 1)
           ++ image_ext
                (Scripted.host
                   (Scripted.gallery [Scripted.bad_png; Scripted.good_png]
                      false None)) src).
Proof.
  apply (@X10_saved_images_numbered ascii_only _
           (Scripted.host
              (Scripted.gallery [Scripted.bad_png; Scripted.good_png]
                 false None))
           (lit "out") true 50 [] [] [(lit "out/img_1.png", 2)]
           [lit "out/img_1.png"]).
  - vm_compute. reflexivity.
  - reflexivity.
Defined.


(* ================================================================== *)
(** * Further properties: the pipeline and the batch loop *)
(* ================================================================== *)

(** Case analysis on every scrutinee of the goal. *)
Ltac break_goal :=
  repeat (cbv beta iota;
          match goal with
          | |- context [match ?x with _ => _ end] =>
              lazymatch x with
              | context [match _ with _ => _ end] => fail
              | _ => destruct x
              end
          end).

Lemma short_safe_folder_returns (now : datetime) (title base_dir : str) :
  exists p, short_safe_folder now title base_dir 60 = Ok p.
Proof.
  unfold short_safe_folder.
  set (t := if is_empty title then lit "article" else title).
  rewrite utf8_encode_ascii.
  2:{ eapply Forall_impl; [apply safe_char_ascii|apply clean_title_safe]. }
  destruct (len (clean_title t) <=? 60)%Z; eexists; reflexivity.
Qed.

Lemma str_or_nonempty (a b : str) : b <> [] -> str_or a b <> [].
Proof. unfold str_or. destruct a; [auto|discriminate]. Qed.

Section RunFacts.
Context {U : Unicode}.
Variable W : Type.
Variable H : Host W.
Variable cfg : Config.

Lemma detect_language_returns (text : str) (w : W) :
  exists lang w', detect_language H text w = (Ok lang, w').
Proof.
  unfold detect_language, try_except, ret.
  destruct (detect H (slice_to 1000 text) w) as [[lang|e] w'].
  - now exists lang, w'.
  - destruct (exn_kind e); eexists; eexists; reflexivity.
Qed.

Lemma fetch_html_returns (url : str) (w : W) :
  exists r w',
    fetch_html H cfg url w = (Ok r, w') /\
    match r with
    | inl out => exists e, out = (None, lit "fetch_error: " ++ exn_str e)
    | inr _ => True
    end.
Proof.
  unfold fetch_html, bind, try_except, ret. break_goal;
    (eexists; eexists; split; [reflexivity|]); cbv beta iota;
    try exact I; eexists; reflexivity.
Qed.

Lemma download_returns (html folder : str) (ssl : bool) (cap : Z) (w : W) :
  exists paths w',
    download_images_from_html H html folder ssl cap w = (Ok paths, w') /\
    (len paths <= Z.max 0 cap)%Z.
Proof.
  unfold download_images_from_html, bind.
  destruct (harvest_loop_returns H folder ssl cap (find_all_img H html)
              [] 0%Z w) as (saved & c & w' & E & Hl & Hc).
  rewrite E. exists saved, w'. split; [reflexivity|].
  unfold len in *. simpl in Hl. lia.
Qed.

Lemma persist_returns (b : bundle) (w : W) :
  exists out w',
    persist H b w = (Ok out, w') /\
    (out = (Some b, lit "ok") \/
     exists e, out = (None, lit "save_error: " ++ exn_str e)).
Proof.
  unfold persist, try_except, bind, ret.
  destruct (save_all H b w) as [[[]|e] w'];
    eexists; eexists; (split; [reflexivity|]); [now left|right; now exists e].
Qed.

Lemma prepare_outcomes (url html : str) (w w' : W) (out : outcome) :
  prepare H cfg url html w = (Ok (inl out), w') ->
  out = (None, lit "no_html") \/ out = (None, lit "access_denied").
Proof.
  unfold prepare, bind, try_except, gets, lift, ret. intros E.
  break_matches E; try discriminate E; inversion E; auto.
Qed.

(** What a prepared record looks like. *)
Lemma prepare_record (url html : str) (w w' : W) (b : bundle) :
  prepare H cfg url html w = (Ok (inr b), w') ->
  b_url b = url /\
  b_title b <> [] /\
  (exists ts,
     b_docx b = path_join (b_folder b) (lit "summary_" ++ ts ++ lit ".docx") /\
     b_pdf b = path_join (b_folder b) (lit "summary_" ++ ts ++ lit ".pdf") /\
     b_txt b = path_join (b_folder b) (lit "summary_" ++ ts ++ lit ".txt")) /\
  (len (b_images b) <= Z.max 0 (max_images cfg))%Z.
Proof.
  unfold prepare, bind, try_except, gets, lift, ret. intros E.
  break_matches_eqn E; try discriminate E; inversion E; subst; cbn;
    (split; [reflexivity|]);
    (split; [apply str_or_nonempty; discriminate|]);
    (split; [eexists; repeat split|]);
    match goal with
    | Hd : download_images_from_html _ ?h ?f ?s ?c ?w0 = (Ok ?p, _) |- _ =>
        let Ed := fresh "Ed" in
        let Hb := fresh "Hb" in
        destruct (download_returns h f s c w0) as (? & ? & Ed & Hb);
        rewrite Ed in Hd; now inversion Hd; subst
    end.
Qed.

(** Where a returned record comes from. *)
Lemma pipeline_record_origin (url : str) (w0 w3 : W) (b : bundle) (st : str) :
  process_url_pipeline H cfg url w0 = (Ok (Some b, st), w3) ->
  st = lit "ok" /\
  exists html w1 w2,
    fetch_html H cfg (strip url) w0 = (Ok (inr html), w1) /\
    prepare H cfg (strip url) html w1 = (Ok (inr b), w2).
Proof.
  unfold process_url_pipeline.
  destruct (is_empty (strip url)); [discriminate|].
  unfold bind at 1.
  destruct (fetch_html H cfg (strip url) w0) as [[[out|html]|e] w1] eqn:Ef;
    [|  |discriminate].
  { intros E. apply fetch_html_early in Ef.
    injection E as -> _. discriminate Ef. }
  unfold bind at 1.
  destruct (prepare H cfg (strip url) html w1) as [[[out|b']|e] w2] eqn:Ep;
    [|  |discriminate].
  { intros E. apply prepare_early in Ep.
    injection E as -> _. discriminate Ep. }
  destruct (persist_returns b' w2) as (out & w' & Es & [->|[e ->]]);
    rewrite Es; intros E; [|discriminate E].
  injection E as <- <- _. split; [reflexivity|]. now exists html, w1, w2.
Qed.

(** X12: A run that returns does so with a record and the status [ok], or with
    no record and one of five statuses: [empty], [no_html],
    [access_denied], [fetch_error: ] or [save_error: ] followed by the text
    of an exception. *)
Theorem X12_status_taxonomy (url : str) (w w' : W) (r : option bundle)
    (st : str) :
  process_url_pipeline H cfg url w = (Ok (r, st), w') ->
  (r = None /\ failure_status st) \/ (exists b, r = Some b /\ st = lit "ok").
Proof.
  unfold process_url_pipeline, failure_status.
  destruct (is_empty (strip url)).
  { intros E. injection E as <- <- _. left. auto. }
  unfold bind at 1.
  destruct (fetch_html_returns (strip url) w) as (r1 & w1 & Ef & Hr1).
  rewrite Ef. destruct r1 as [out|html].
  { destruct Hr1 as [e ->]. intros E. injection E as <- <- _.
    left. split; [reflexivity|]. right. right. right. left. now exists e. }
  unfold bind at 1.
  destruct (prepare H cfg (strip url) html w1) as [[[out|b]|e] w2] eqn:Ep;
    [|  |discriminate].
  { apply prepare_outcomes in Ep as [->| ->];
      intros E; injection E as <- <- _; left; auto. }
  destruct (persist_returns b w2) as (out & w3 & Es & [->|[e ->]]);
    rewrite Es; intros E; injection E as <- <- _.
  - right. now exists b.
  - left. split; [reflexivity|]. do 4 right. now exists e.
Qed.

(** X13: A returned record carries the trimmed URL, a title that is not empty,
    three document paths in its folder that share one time stamp, and at
    most [max_images] image paths. *)
Theorem X13_record_well_formed (url : str) (w w' : W) (b : bundle)
    (st : str) :
  process_url_pipeline H cfg url w = (Ok (Some b, st), w') ->
  b_url b = strip url /\
  b_title b <> [] /\
  (exists ts,
     b_docx b = path_join (b_folder b) (lit "summary_" ++ ts ++ lit ".docx") /\
     b_pdf b = path_join (b_folder b) (lit "summary_" ++ ts ++ lit ".pdf") /\
     b_txt b = path_join (b_folder b) (lit "summary_" ++ ts ++ lit ".txt")) /\
  (len (b_images b) <= Z.max 0 (max_images cfg))%Z.
Proof.
  intros E. apply pipeline_record_origin in E as (_ & html & w1 & w2 & _ & Ep).
  exact (prepare_record _ _ _ Ep).
Qed.

(** X14: An empty body from the plain fetch is not a failed fetch: the evading
    client and the browser are not tried, and the run ends with
    [no_html] in the world the plain fetch left. *)
Theorem X14_empty_body_no_fallback (url : str) (w0 w1 : W) :
  strip url <> [] ->
  fetch_requests H (strip url) (negb (ignore_ssl cfg)) w0 = (Ok [], w1) ->
  process_url_pipeline H cfg url w0 = (Ok (None, lit "no_html"), w1).
Proof.
  intros Hurl Hplain. unfold process_url_pipeline.
  destruct (strip url) as [|u0 url'] eqn:Eurl; [now elim Hurl|].
  cbn [is_empty]. unfold bind at 1.
  unfold fetch_html, bind, try_except, ret. rewrite Hplain.
  reflexivity.
Qed.

(** X15: A fetched page that merely contains the words [access denied] (in any
    case) is passed over for the browser, without the evading client; if
    the browser then raises, the run fails with [fetch_error: ] and the
    text of that exception, the page already fetched being dropped. *)
Theorem X15_marked_page_needs_browser (url html : str) (w0 w1 w2 : W)
    (e : exn) :
  strip url <> [] ->
  fetch_requests H (strip url) (negb (ignore_ssl cfg)) w0 = (Ok html, w1) ->
  contains (lit "access denied") (lower html) = true ->
  fetch_selenium H (strip url) (headless cfg) (wait_time cfg) true 20 w1
  = (Raise e, w2) ->
  process_url_pipeline H cfg url w0
  = (Ok (None, lit "fetch_error: " ++ exn_str e), w2).
Proof.
  intros Hurl Hplain Hmark Hbrowser. unfold process_url_pipeline.
  destruct (strip url) as [|u0 url'] eqn:Eurl; [now elim Hurl|].
  cbn [is_empty]. unfold bind at 1.
  unfold fetch_html, bind, try_except, ret. rewrite Hplain.
  cbn [is_none andb orb or_empty]. rewrite Hmark. cbn [orb].
  now rewrite Hbrowser.
Qed.

Lemma prepare_raises (url html : str) (w w' : W) (e : exn) :
  prepare H cfg url html w = (Raise e, w') ->
  exists folder w1 e1 w2,
    os_makedirs H folder w1 = (Raise e1, w2) /\
    ((e = encode_error /\ w' = w2) \/
     exists folder', os_makedirs H folder' w2 = (Raise e, w')).
Proof.
  unfold prepare.
  destruct (is_empty html); [discriminate|].
  destruct (access_denied_page html); [discriminate|].
  unfold bind at 1.
  destruct (detect_language_returns (extract_text_from_html H html) w)
    as (lang & wa & Ed).
  rewrite Ed. unfold bind at 1. unfold gets at 1. unfold bind at 1.
  set (title := str_or (str_or (extract_title_from_html H html)
                               (after_last slash url)) (lit "article")).
  destruct (short_safe_folder_returns (clock H wa) title OUTPUT_BASE)
    as [folder Hf].
  unfold lift at 1. rewrite Hf. unfold bind at 1. unfold try_except at 1.
  unfold bind at 1.
  destruct (os_makedirs H folder wa) as [[[]|e1] wb] eqn:Em.
  - unfold bind, gets, ret.
    destruct (download_returns html folder (ignore_ssl cfg) (max_images cfg)
                wb) as (paths & wc & Edl & _).
    rewrite Edl. discriminate.
  - destruct (utf8_encode title) as [bs|] eqn:Eu.
    + unfold bind at 1.
      destruct (os_makedirs H _ wb) as [[[]|e2] wc] eqn:Em2.
      * unfold bind, gets, ret.
        match goal with
        | |- context [download_images_from_html H html ?f _ _ wc] =>
            destruct (download_returns html f (ignore_ssl cfg)
                        (max_images cfg) wc) as (paths & wd & Edl & _)
        end.
        rewrite Edl. discriminate.
      * intros E. injection E as <- <-.
        exists folder, wa, e1, wb. split; [exact Em|]. right.
        eexists. exact Em2.
    + unfold raise. intros E. injection E as <- <-.
      exists folder, wa, e1, wb. split; [exact Em|]. now left.
Qed.

(** X16: The only exceptions that reach the caller of the pipeline come out of
    the handler of a failed [os.makedirs]: the second [os.makedirs], or the
    encoding of the title for the fallback name.  A failure of a fetch, of
    the language detector, of an image or of a document write never does. *)
Theorem X16_only_makedirs_escapes (url : str) (w0 w' : W) (e : exn) :
  process_url_pipeline H cfg url w0 = (Raise e, w') ->
  exists folder w1 e1 w2,
    os_makedirs H folder w1 = (Raise e1, w2) /\
    ((e = encode_error /\ w' = w2) \/
     exists folder', os_makedirs H folder' w2 = (Raise e, w')).
Proof.
  unfold process_url_pipeline.
  destruct (is_empty (strip url)); [discriminate|].
  unfold bind at 1.
  destruct (fetch_html_returns (strip url) w0) as (r1 & w1 & Ef & _).
  rewrite Ef. destruct r1 as [out|html]; [discriminate|].
  unfold bind at 1.
  destruct (prepare H cfg (strip url) html w1) as [[[out|b]|e0] w2] eqn:Ep.
  - discriminate.
  - destruct (persist_returns b w2) as (out & w3 & Es & _).
    rewrite Es. discriminate.
  - intros E. injection E as <- <-. exact (prepare_raises _ _ _ Ep).
Qed.

(** X17: Where no directory can be created (every [os.makedirs] raises), a run
    that fetched a page which is neither empty nor judged a blocking page
    does not end in a status: an exception reaches the caller. *)
Theorem X17_unwritable_disk_raises (url html : str) (w0 w1 : W) :
  strip url <> [] ->
  fetch_html H cfg (strip url) w0 = (Ok (inr html), w1) ->
  html <> [] ->
  access_denied_page html = false ->
  (forall p w, exists e w', os_makedirs H p w = (Raise e, w')) ->
  exists e w', process_url_pipeline H cfg url w0 = (Raise e, w').
Proof.
  intros Hurl Hfetch Hhtml Hpage Hdisk. unfold process_url_pipeline.
  destruct (strip url) as [|u0 url'] eqn:Eurl; [now elim Hurl|].
  cbn [is_empty]. unfold bind at 1. rewrite Hfetch.
  unfold bind at 1. unfold prepare.
  destruct html as [|h0 html']; [now elim Hhtml|]. cbn [is_empty].
  rewrite Hpage. unfold bind at 1.
  destruct (detect_language_returns
              (extract_text_from_html H (h0 :: html')) w1)
    as (lang & wa & Ed).
  rewrite Ed. unfold bind at 1. unfold gets at 1. unfold bind at 1.
  match goal with |- context [short_safe_folder ?n ?t ?b 60] =>
    destruct (short_safe_folder_returns n t b) as [folder Hf];
    set (title := t) in *
  end.
  unfold lift at 1. rewrite Hf. unfold bind at 1. unfold try_except at 1.
  unfold bind at 1.
  destruct (Hdisk folder wa) as (e1 & wb & Em). rewrite Em.
  destruct (utf8_encode title) as [bs|].
  - unfold bind at 1.
    match goal with |- context [os_makedirs H ?f wb] =>
      destruct (Hdisk f wb) as (e2 & wc & Em2); rewrite Em2
    end.
    now exists e2, wc.
  - unfold raise. now exists encode_error, wb.
Qed.

(** X18: The batch loop counts every line once, as a success or as a failure,
    and collects one record for each success: when it returns,
    [succ + fail] is the number of lines and [results] has [succ]
    records. *)
Theorem X18_batch_counts_add_up (lines : list str) (w w' : W)
    (succ fail : Z) (results : list bundle) :
  batch_loop H cfg lines (0%Z, 0%Z, []) w = (Ok (succ, fail, results), w') ->
  (succ + fail = len lines)%Z /\
  len results = succ /\
  (0 <= fail)%Z.
Proof.
  assert (G : forall ls s0 f0 r0 w0,
            batch_loop H cfg ls (s0, f0, r0) w0
            = (Ok (succ, fail, results), w') ->
            (succ + fail = s0 + f0 + len ls)%Z /\
            (len results - len r0 = succ - s0)%Z /\
            (f0 <= fail)%Z).
  { induction ls as [|u rest IH]; intros s0 f0 r0 w0 E.
    - injection E as <- <- <- _. unfold len. simpl. lia.
    - cbn [batch_loop] in E. unfold bind in E.
      destruct (process_url_pipeline H cfg u w0) as [[[[b|] st]|e] w1];
        [| |discriminate E].
      + destruct (str_eqb st (lit "ok")); apply IH in E;
          unfold len in *; try rewrite length_app in E; simpl length in *; lia.
      + apply IH in E. unfold len in *. simpl length. lia. }
  intros E. apply G in E. unfold len in *. simpl in E. lia.
Qed.

End RunFacts.

(** X12 on the scripted host serving the blocking page. *)
Lemma X12_status_taxonomy_witness :
  exists r st w',
    @process_url_pipeline ascii_only _ (Scripted.host Scripted.blocked)
      Scripted.config (lit " http://x/a ") []
    = (Ok (r, st), w') /\
    ((r = None /\ failure_status st) \/
     (exists b, r = Some b /\ st = lit "ok")).
Proof.
  do 3 eexists. split; [vm_compute; reflexivity|].
  eapply (@X12_status_taxonomy ascii_only _ (Scripted.host Scripted.blocked)
            Scripted.config (lit " http://x/a ") []).
  vm_compute. reflexivity.
Defined.

(** X13 on the scripted host: the record of a successful run. *)
Lemma X13_record_well_formed_witness :
  exists b w',
    @process_url_pipeline ascii_only _
      (Scripted.host
         (Scripted.gallery [Scripted.bad_png; Scripted.good_png] false None))
      Scripted.config (lit " http://x/a ") []
    = (Ok (Some b, lit "ok"), w') /\
    b_url b = strip (lit " http://x/a ") /\
    b_title b <> [] /\
    (exists ts,
       b_docx b
       = path_join (b_folder b) (lit "summary_" ++ ts ++ lit ".docx") /\
       b_pdf b = path_join (b_folder b) (lit "summary_" ++ ts ++ lit ".pdf") /\
       b_txt b = path_join (b_folder b) (lit "summary_" ++ ts ++ lit ".txt")) /\
    (len (b_images b) <= Z.max 0 (max_images Scripted.config))%Z.
Proof.
  eexists. eexists. split; [vm_compute; reflexivity|].
  eapply (@X13_record_well_formed ascii_only _
            (Scripted.host
               (Scripted.gallery [Scripted.bad_png; Scripted.good_png]
                  false None))
            Scripted.config (lit " http://x/a ") [] _ _ (lit "ok")).
  vm_compute. reflexivity.
Defined.

(** X14 on the scripted host answering with an empty body: the browser,
    which would have rendered a page, is not consulted. *)
Lemma X14_empty_body_no_fallback_witness :
  @process_url_pipeline ascii_only _ (Scripted.host Scenes.empty_body)
    Scripted.config (lit " http://x/a ") []
  = (Ok (None, lit "no_html"), []).
Proof.
  apply (@X14_empty_body_no_fallback ascii_only).
  - discriminate.
  - reflexivity.
Defined.

(** X15 on the scripted host: an article mentioning the words, and no
    browser. *)
Lemma X15_marked_page_needs_browser_witness :
  @process_url_pipeline ascii_only _ (Scripted.host Scenes.mention)
    Scripted.config (lit " http://x/a ") []
  = (Ok (None, lit "fetch_error: chrome not found"), []).
Proof.
  apply (@X15_marked_page_needs_browser ascii_only _
           (Scripted.host Scenes.mention) Scripted.config
           (lit " http://x/a ")
           (lit "<p>The server said access denied twice.</p>") [] [] []
           (Scripted.error "chrome not found")).
  - discriminate.
  - reflexivity.
  - vm_compute. reflexivity.
  - reflexivity.
Defined.

(** X16 on the read-only scripted host, where the run raises. *)
Lemma X16_only_makedirs_escapes_witness :
  exists folder w1 e1 w2,
    os_makedirs
      (ReadOnly.host (Scripted.gallery [Scripted.good_png] false None))
      folder w1
    = (Raise e1, w2) /\
    ((Scripted.error "Read-only file system" = encode_error /\ [] = w2) \/
     exists folder',
       os_makedirs
         (ReadOnly.host (Scripted.gallery [Scripted.good_png] false None))
         folder' w2
       = (Raise (Scripted.error "Read-only file system"), [])).
Proof.
  apply (@X16_only_makedirs_escapes ascii_only _
           (ReadOnly.host (Scripted.gallery [Scripted.good_png] false None))
           Scripted.config (lit " http://x/a ") [] []
           (Scripted.error "Read-only file system")).
  vm_compute. reflexivity.
Defined.

(** X17 on the read-only scripted host. *)
Lemma X17_unwritable_disk_raises_witness :
  exists e w',
    @process_url_pipeline ascii_only _
      (ReadOnly.host (Scripted.gallery [Scripted.good_png] false None))
      Scripted.config (lit " http://x/a ") []
    = (Raise e, w').
Proof.
  apply (@X17_unwritable_disk_raises ascii_only _
           (ReadOnly.host (Scripted.gallery [Scripted.good_png] false None))
           Scripted.config (lit " http://x/a ")
           (lit "<html><p>One two. One two. Six. One two.</p></html>") [] []).
  - discriminate.
  - vm_compute. reflexivity.
  - discriminate.
  - vm_compute. reflexivity.
  - intros p w. eexists. eexists. reflexivity.
Defined.

(** X18 on the scripted host: a batch of two lines, both saved. *)
Lemma X18_batch_counts_add_up_witness :
  exists succ fail results w',
    @batch_loop ascii_only _
      (Scripted.host (Scripted.gallery [Scripted.good_png] false None))
      Scripted.config [lit "http://x/a"; lit "http://x/b"] (0%Z, 0%Z, []) []
    = (Ok (succ, fail, results), w') /\
    (succ + fail = len [lit "http://x/a"; lit "http://x/b"])%Z /\
    len results = succ /\
    (0 <= fail)%Z.
Proof.
  do 4 eexists. split; [vm_compute; reflexivity|].
  eapply (@X18_batch_counts_add_up ascii_only _
            (Scripted.host (Scripted.gallery [Scripted.good_png] false None))
            Scripted.config [lit "http://x/a"; lit "http://x/b"] []).
  vm_compute. reflexivity.
Defined.

Section UntitledPages.
Context {U : Unicode}.
Variable W : Type.
Variable H : Host W.
Variable cfg : Config.



End UntitledPages.

